(** * Provider-side session core: session manager and hermes promise handler

    A shallow embedding of the two Go files of the session core
    (package [service]: the session manager; package [pingpong]: the hermes
    promise handler) together with the properties of their design that can
    be checked on the code. *)

From Stdlib Require Import ZArith Lia List Bool Ascii String.
From stdpp Require Import base option list strings gmap.

Open Scope Z_scope.
Open Scope string_scope.
Open Scope list_scope.

(** ** Go errors

    Go error values form chains through [Unwrap]; [errors.Is] and
    [errors.As] walk such a chain.  The sentinels of the package are leaves
    (they come from [errors.New] and have no [Unwrap]). *)
Module GoError.

Inductive sentinel :=
| ErrNeedsRRecovery
| ErrHermesNoPreviousPromise
| ErrAttemptToOverwrite
| ErrorInvalidProposal
| ErrorSessionNotExists
| ErrorWrongSessionOwner.

Definition sentinel_eqb (a b : sentinel) : bool :=
  match a, b with
  | ErrNeedsRRecovery, ErrNeedsRRecovery
  | ErrHermesNoPreviousPromise, ErrHermesNoPreviousPromise
  | ErrAttemptToOverwrite, ErrAttemptToOverwrite
  | ErrorInvalidProposal, ErrorInvalidProposal
  | ErrorSessionNotExists, ErrorSessionNotExists
  | ErrorWrongSessionOwner, ErrorWrongSessionOwner => true
  | _, _ => false
  end.

(** [Sentinel s]: one of the package-level error variables.
    [New msg]: any other leaf error ([errors.New], library errors).
    [Errorf msg cause]: [fmt.Errorf("msg: %w", cause)] and [errors.Wrap].
    [HermesErrorResponse data c]: the structured error of the hermes HTTP
    client; [Data()] returns [data], [Unwrap()] returns the cause [c]. *)
Inductive error :=
| Sentinel (s : sentinel)
| New (msg : string)
| Errorf (msg : string) (cause : error)
| HermesErrorResponse (data : string) (c : error).

(** [Unwrap]: one step down the chain. *)
Definition Unwrap (e : error) : option error :=
  match e with
  | Errorf _ c => Some c
  | HermesErrorResponse _ c => Some c
  | Sentinel _ | New _ => None
  end.

(** [errors.Is(err, target)] for a sentinel target. *)
Fixpoint Is (err : error) (target : sentinel) : bool :=
  match err with
  | Sentinel s => sentinel_eqb s target
  | New _ => false
  | Errorf _ c => Is c target
  | HermesErrorResponse _ c => Is c target
  end.

(** [errors.As(err, &aer)] for [aer HermesErrorResponse]: the payload of the
    first structured hermes error of the chain. *)
Fixpoint As (err : error) : option string :=
  match err with
  | HermesErrorResponse data _ => Some data
  | Errorf _ c => As c
  | Sentinel _ | New _ => None
  end.

(** [wraps outer inner]: [inner] is [outer] or is reached from it by
    [Unwrap]. *)
Inductive wraps : error -> error -> Prop :=
| wraps_refl e : wraps e e
| wraps_step e c inner : Unwrap e = Some c -> wraps c inner -> wraps e inner.

End GoError.
Export GoError.

(** Results of Go functions returning [(T, error)]. *)
Inductive result (A : Type) :=
| Ok (a : A)
| Err (e : error).
Arguments Ok {A} a.
Arguments Err {A} e.

(** ** encoding/hex *)
Module hex.

Definition hextable (n : N) : ascii :=
  match n with
  | 0 => "0" | 1 => "1" | 2 => "2" | 3 => "3" | 4 => "4" | 5 => "5"
  | 6 => "6" | 7 => "7" | 8 => "8" | 9 => "9" | 10 => "a" | 11 => "b"
  | 12 => "c" | 13 => "d" | 14 => "e" | _ => "f"
  end%N%char.

(** [reverseHexTable]: the value of a hexadecimal digit, either case. *)
Definition fromHexChar (c : ascii) : option N :=
  let n := N_of_ascii c in
  if ((48 <=? n) && (n <=? 57))%N then Some (n - 48)%N
  else if ((97 <=? n) && (n <=? 102))%N then Some (n - 87)%N
  else if ((65 <=? n) && (n <=? 70))%N then Some (n - 55)%N
  else None.

(** [hex.EncodeToString]: two digits per byte, high nibble first. *)
Fixpoint EncodeToString (src : list Byte.byte) : string :=
  match src with
  | [] => EmptyString
  | b :: rest =>
      let v := Byte.to_N b in
      String (hextable (N.shiftr v 4))
        (String (hextable (N.land v 15)) (EncodeToString rest))
  end.

Definition InvalidByteError : error := New "encoding/hex: invalid byte".
Definition ErrLength : error := New "encoding/hex: odd length hex string".

(** [hex.DecodeString]: pairs of digits; an invalid digit is reported
    before an odd length. *)
Fixpoint DecodeString (s : string) : result (list Byte.byte) :=
  match s with
  | EmptyString => Ok []
  | String p EmptyString =>
      match fromHexChar p with
      | None => Err InvalidByteError
      | Some _ => Err ErrLength
      end
  | String p (String q rest) =>
      match fromHexChar p, fromHexChar q with
      | None, _ => Err InvalidByteError
      | _, None => Err InvalidByteError
      | Some a, Some b =>
          match DecodeString rest with
          | Err e => Err e
          | Ok bs =>
              match Byte.of_N (N.lor (N.shiftl a 4) b) with
              | Some x => Ok (x :: bs)
              | None => Err InvalidByteError
              end
          end
      end
  end.

End hex.

(** ** Identities and addresses *)
Module identity.

(** [common.Address]; the library functions that build and print one are
    taken as parameters where they are used. *)
Definition CommonAddress := string.

(** [identity.Identity]. *)
Record Identity := { Address : string }.

Definition Identity_eqb (a b : Identity) : bool :=
  String.eqb (Address a) (Address b).

(** [*big.Int]: [None] is the nil pointer. *)
Definition BigInt := option Z.

End identity.
Export identity.

(** ** The hermes promise handler (package pingpong) *)
Module pingpong.

(** [crypto.Promise]: opaque to the handler apart from its chain id. *)
Record Promise := { PromiseChainID : Z; PromiseBody : string }.

(** [crypto.ExchangeMessage], the fields the handler reads. *)
Record ExchangeMessage := {
  HermesID : string;
  AgreementID : BigInt;
  AgreementTotal : BigInt;
  ChainID : Z
}.

(** [registry.FeesResponse]. *)
Record FeesResponse := { Fee : BigInt; ValidUntil : Z }.

Record rRecoveryDetails := { R : string; DetailsAgreementID : BigInt }.

Record RequestPromise_ := {
  ReqExchangeMessage : ExchangeMessage;
  TransactorFee : BigInt;
  RRecoveryData : string
}.

Record HermesPromise := {
  ChannelID : string;
  HPIdentity : Identity;
  HPHermesID : CommonAddress;
  HPPromise : Promise;
  HPR : string;
  Revealed : bool;
  HPAgreementID : BigInt
}.

Definition setRevealed (b : bool) (hp : HermesPromise) : HermesPromise :=
  {| ChannelID := ChannelID hp; HPIdentity := HPIdentity hp;
     HPHermesID := HPHermesID hp; HPPromise := HPPromise hp; HPR := HPR hp;
     Revealed := b; HPAgreementID := HPAgreementID hp |}.

(** Error channels are named by the order of their creation. *)
Definition chan := nat.

Record enqueuedRequest := {
  errChan : chan;
  r : list Byte.byte;
  em : ExchangeMessage;
  providerID : Identity;
  sessionID : string
}.

Inductive topic := AppTopicHermesPromise | AppTopicTokensEarned.

Inductive payload :=
| AppEventHermesPromise (promise : Promise) (hermesID : CommonAddress)
    (provider : Identity)
| AppEventTokensEarned (provider : Identity) (session : string)
    (total : BigInt).

(** What the handler does to the outside, in order: calls on its
    collaborators and operations on the error channels. *)
Inductive event :=
| EvFetchSettleFees (chainID : Z)
| EvGetHermesURL (hermesID : CommonAddress)
| EvRequestPromise (url : string) (rp : RequestPromise_)
| EvRevealR (url : string) (r : string) (provider : string)
    (agreementID : BigInt)
| EvStore (hp : HermesPromise)
| EvPublish (t : topic) (p : payload)
| EvChanSend (c : chan) (e : error)
| EvChanClose (c : chan).

(** The collaborators.  A collaborator that holds state of its own (fee
    provider, URL getter, hermes, storage, the clock behind
    [FeesResponse.IsValid]) answers as a function of everything the handler
    has done so far; library functions and the keystore are functions of
    their arguments. *)
Record Env := {
  HexToAddress : string -> CommonAddress;
  AddressHex : CommonAddress -> string;
  GenerateProviderChannelID : string -> string -> result string;
  jsonMarshal : rRecoveryDetails -> result (list Byte.byte);
  jsonUnmarshal : list Byte.byte -> result rRecoveryDetails;
  FlagChainID : Z;
  Encrypt : CommonAddress -> list Byte.byte -> result (list Byte.byte);
  Decrypt : CommonAddress -> list Byte.byte -> result (list Byte.byte);
  IsValid : list event -> FeesResponse -> bool;
  FetchSettleFees : list event -> Z -> FeesResponse * option error;
  GetHermesURL : list event -> CommonAddress -> result string;
  HermesRequestPromise :
    list event -> string -> RequestPromise_ -> Promise * option error;
  HermesRevealR :
    list event -> string -> string -> string -> BigInt -> option error;
  Store : list event -> HermesPromise -> option error
}.

(** The handler: its mutable fields and the trace of what it has done. *)
Record HermesPromiseHandler := {
  queue : list enqueuedRequest;
  stop : bool;          (* the stop channel is closed *)
  stopOnce : bool;      (* the sync.Once has fired *)
  startOnce : bool;
  transactorFee : FeesResponse;
  nextChan : chan;      (* channels made so far *)
  trace : list event
}.

Definition withQueue (q : list enqueuedRequest) (aph : HermesPromiseHandler)
  : HermesPromiseHandler :=
  {| queue := q; stop := stop aph; stopOnce := stopOnce aph;
     startOnce := startOnce aph; transactorFee := transactorFee aph;
     nextChan := nextChan aph; trace := trace aph |}.

Definition withTrace (t : list event) (aph : HermesPromiseHandler)
  : HermesPromiseHandler :=
  {| queue := queue aph; stop := stop aph; stopOnce := stopOnce aph;
     startOnce := startOnce aph; transactorFee := transactorFee aph;
     nextChan := nextChan aph; trace := t |}.

Definition withFee (f : FeesResponse) (aph : HermesPromiseHandler)
  : HermesPromiseHandler :=
  {| queue := queue aph; stop := stop aph; stopOnce := stopOnce aph;
     startOnce := startOnce aph; transactorFee := f;
     nextChan := nextChan aph; trace := trace aph |}.

Definition M (A : Type) : Type :=
  HermesPromiseHandler -> A * HermesPromiseHandler.

Definition ret {A} (a : A) : M A := fun aph => (a, aph).

Definition bind {A B} (m : M A) (k : A -> M B) : M B :=
  fun aph => let '(a, aph') := m aph in k a aph'.

Notation "'let*' x ':=' m 'in' k" := (bind m (fun x => k))
  (at level 10, x pattern, m at level 100, k at level 200).

Definition emit (ev : event) : M unit :=
  fun aph => (tt, withTrace (trace aph ++ [ev]) aph).

Definition getTrace : M (list event) := fun aph => (trace aph, aph).

Definition getFee : M FeesResponse := fun aph => (transactorFee aph, aph).

Definition setFee (f : FeesResponse) : M unit :=
  fun aph => (tt, withFee f aph).

(** [call ev answer]: ask a collaborator; its answer is read off the trace
    before the call, and the call is recorded. *)
Definition call {A} (ev : event) (answer : list event -> A) : M A :=
  fun aph => (answer (trace aph), withTrace (trace aph ++ [ev]) aph).

Section Handler.

Variable env : Env.

Definition ToCommonAddress (id : Identity) : CommonAddress :=
  HexToAddress env (Address id).

Definition updateFee : M unit :=
  let* (fees, err) :=
    call (EvFetchSettleFees (FlagChainID env))
         (fun t => FetchSettleFees env t (FlagChainID env)) in
  match err with
  | Some _ => ret tt
  | None => setFee fees
  end.

(** The caller made by [HermesCallerFactory] is named by its URL. *)
Definition getHermesCaller (hermesID : CommonAddress) : M (result string) :=
  let* a := call (EvGetHermesURL hermesID)
                 (fun t => GetHermesURL env t hermesID) in
  match a with
  | Err err => ret (Err (Errorf "could not get hermes URL" err))
  | Ok addr => ret (Ok addr)
  end.

Definition recoverR (data : string) (providerID : Identity)
    (hermesID : CommonAddress) : M (option error) :=
  match hex.DecodeString data with
  | Err err => ret (Some (Errorf "could not decode R recovery details" err))
  | Ok decoded =>
  match Decrypt env (ToCommonAddress providerID) decoded with
  | Err err => ret (Some (Errorf "could not decrypt R details" err))
  | Ok decrypted =>
  match jsonUnmarshal env decrypted with
  | Err err => ret (Some (Errorf "could not unmarshal R details" err))
  | Ok res =>
  let* c := getHermesCaller hermesID in
  match c with
  | Err err => ret (Some (Errorf "could not get hermes caller" err))
  | Ok hermesCaller =>
  let* err :=
    call (EvRevealR hermesCaller (R res) (Address providerID)
            (DetailsAgreementID res))
         (fun t => HermesRevealR env t hermesCaller (R res)
                     (Address providerID) (DetailsAgreementID res)) in
  match err with
  | Some err => ret (Some (Errorf "could not reveal R" err))
  | None => ret None
  end end end end end.

Definition handleHermesError (err : option error) (providerID : Identity)
    (hermesID : CommonAddress) : M (option error) :=
  match err with
  | None => ret None
  | Some err =>
      if Is err ErrNeedsRRecovery then
        match As err with
        | None =>
            ret (Some (New "could not cast errNeedsRecovery to hermesError"))
        | Some aer =>
            let* recoveryErr := recoverR aer providerID hermesID in
            match recoveryErr with
            | Some recoveryErr => ret (Some recoveryErr)
            | None => ret None
            end
        end
      else if Is err ErrHermesNoPreviousPromise then ret None
      else ret (Some err)
  end.

Definition revealR (hermesPromise : HermesPromise) : M (option error) :=
  if Revealed hermesPromise then ret None
  else
  let* c := getHermesCaller (HPHermesID hermesPromise) in
  match c with
  | Err err => ret (Some (Errorf "could not get hermes caller" err))
  | Ok hermesCaller =>
  let* err :=
    call (EvRevealR hermesCaller (HPR hermesPromise)
            (Address (HPIdentity hermesPromise))
            (HPAgreementID hermesPromise))
         (fun t => HermesRevealR env t hermesCaller (HPR hermesPromise)
                     (Address (HPIdentity hermesPromise))
                     (HPAgreementID hermesPromise)) in
  let* handledErr :=
    handleHermesError err (HPIdentity hermesPromise)
      (HPHermesID hermesPromise) in
  match handledErr, err with
  | Some _, Some err => ret (Some (Errorf "could not reveal R" err))
  | Some _, None => ret (Some (New "could not reveal R: %!w(<nil>)"))
  | None, _ =>
  let hermesPromise := setRevealed true hermesPromise in
  let* err := call (EvStore hermesPromise)
                   (fun t => Store env t hermesPromise) in
  match err with
  | Some err =>
      if negb (Is err ErrAttemptToOverwrite)
      then ret (Some (Errorf "could not store hermes promise" err))
      else ret None
  | None => ret None
  end end end.

(** The [return] statement by which [requestPromise] leaves. *)
Inductive returnPoint :=
| AtChannelID | AtMarshal | AtEncrypt | AtHermesCaller | AtRequestPromise
| AtStore | AtRevealR | AtEnd.

(** [er.errChan <- err; return] *)
Definition sendAndReturn (er : enqueuedRequest) (err : error)
    (at_ : returnPoint) : M returnPoint :=
  let* _ := emit (EvChanSend (errChan er) err) in
  ret at_.

(** The body of [requestPromise]; the deferred close is in
    [requestPromise] below.  The value is the return statement taken. *)
Definition requestPromise_body (er : enqueuedRequest) : M returnPoint :=
  let providerID := providerID er in
  let hermesID := HexToAddress env (HermesID (em er)) in
  match GenerateProviderChannelID env (Address providerID)
          (AddressHex env hermesID) with
  | Err err =>
      sendAndReturn er
        (Errorf "could not generate provider channel address" err)
        AtChannelID
  | Ok channelID =>
  let* t := getTrace in
  let* fee := getFee in
  let* _ := if negb (IsValid env t fee) then updateFee else ret tt in
  let details :=
    {| R := hex.EncodeToString (r er);
       DetailsAgreementID := AgreementID (em er) |} in
  match jsonMarshal env details with
  | Err err =>
      sendAndReturn er (Errorf "could not marshal R recovery details" err)
        AtMarshal
  | Ok bytes =>
  match Encrypt env (ToCommonAddress providerID) bytes with
  | Err err =>
      sendAndReturn er (Errorf "could not encrypt R" err) AtEncrypt
  | Ok encrypted =>
  let* fee := getFee in
  let request :=
    {| ReqExchangeMessage := em er;
       TransactorFee := Fee fee;
       RRecoveryData := hex.EncodeToString encrypted |} in
  let* c := getHermesCaller hermesID in
  match c with
  | Err err =>
      sendAndReturn er (Errorf "could not get hermes caller" err)
        AtHermesCaller
  | Ok hermesCaller =>
  let* (promise, err) :=
    call (EvRequestPromise hermesCaller request)
         (fun t => HermesRequestPromise env t hermesCaller request) in
  let* err := handleHermesError err providerID hermesID in
  match err with
  | Some err =>
      sendAndReturn er (Errorf "hermes request promise error" err)
        AtRequestPromise
  | None =>
  (* a chain id that differs from the request's is only logged *)
  let ap :=
    {| ChannelID := channelID;
       HPIdentity := providerID;
       HPHermesID := hermesID;
       HPPromise := promise;
       HPR := hex.EncodeToString (r er);
       Revealed := false;
       HPAgreementID := AgreementID (em er) |} in
  let afterStore : M returnPoint :=
    let* _ := emit (EvPublish AppTopicHermesPromise
                      (AppEventHermesPromise promise hermesID providerID)) in
    let* _ := emit (EvPublish AppTopicTokensEarned
                      (AppEventTokensEarned providerID (sessionID er)
                         (AgreementTotal (em er)))) in
    let* err := revealR ap in
    let* err := handleHermesError err providerID hermesID in
    match err with
    | Some err =>
        sendAndReturn er (Errorf "hermes reveal r error" err) AtRevealR
    | None => ret AtEnd
    end in
  let* err := call (EvStore ap) (fun t => Store env t ap) in
  match err with
  | Some err =>
      if negb (Is err ErrAttemptToOverwrite)
      then sendAndReturn er (Errorf "could not store hermes promise" err)
             AtStore
      else afterStore
  | None => afterStore
  end end end end end end.

(** [requestPromise]: the body, then the deferred [close(er.errChan)]. *)
Definition requestPromise (er : enqueuedRequest) : M unit :=
  let* _ := requestPromise_body er in
  emit (EvChanClose (errChan er)).

(** [RequestPromise] makes the error channel and puts the request on the
    queue of capacity 100; on a full queue the send blocks and the call has
    not returned ([None]). *)
Definition RequestPromise (r_ : list Byte.byte) (em_ : ExchangeMessage)
    (providerID_ : Identity) (sessionID_ : string) : M (option chan) :=
  fun aph =>
    let er := {| errChan := nextChan aph; r := r_; em := em_;
                 providerID := providerID_; sessionID := sessionID_ |} in
    let aph :=
      {| queue := queue aph; stop := stop aph; stopOnce := stopOnce aph;
         startOnce := startOnce aph; transactorFee := transactorFee aph;
         nextChan := S (nextChan aph); trace := trace aph |} in
    if (length (queue aph) <? 100)%nat
    then (Some (errChan er), withQueue (queue aph ++ [er]) aph)
    else (None, aph).

(** [handleRequests]: the worker.  Each element of [choices] settles one
    [select] when both cases are ready ([true]: the stop case).  The value
    says whether the worker has returned. *)
Fixpoint handleRequests (choices : list bool) : M bool :=
  match choices with
  | [] => ret false
  | preferStop :: rest =>
      fun aph =>
        match stop aph, queue aph with
        | false, [] => (false, aph)
        | true, [] => (true, aph)
        | closed, entry :: q =>
            if closed && preferStop then (true, aph)
            else (let* _ := requestPromise entry in handleRequests rest)
                   (withQueue q aph)
        end
  end.

(** [doStop]: [stopOnce.Do(func() { close(aph.stop) })]. *)
Definition doStop : M unit :=
  fun aph =>
    if stopOnce aph then (tt, aph)
    else (tt, {| queue := queue aph; stop := true; stopOnce := true;
                 startOnce := startOnce aph;
                 transactorFee := transactorFee aph;
                 nextChan := nextChan aph; trace := trace aph |}).


(** *** The runs of [requestPromise], leg by leg

    The events a call of [requestPromise_body] adds to the trace, by the
    return statement it takes. *)

(** Events of the error handling: resolving the hermes and revealing. *)
Definition calm (ev : event) : bool :=
  match ev with
  | EvGetHermesURL _ | EvRevealR _ _ _ _ => true
  | _ => false
  end.

(** Events of [revealR] and its error handling: those, and the store of a
    revealed promise. *)
Definition revealing (ev : event) : bool :=
  match ev with
  | EvGetHermesURL _ | EvRevealR _ _ _ _ => true
  | EvStore hp => Revealed hp
  | _ => false
  end.

Definition unrevealedStore (ev : event) : bool :=
  match ev with
  | EvStore hp => negb (Revealed hp)
  | _ => false
  end.

Definition isChanEvent (ev : event) : bool :=
  match ev with
  | EvChanSend _ _ | EvChanClose _ => true
  | _ => false
  end.

(** No event of [l] is on an error channel. *)
Definition quiet (l : list event) : Prop :=
  forallb (fun ev => negb (isChanEvent ev)) l = true.

(** No event of [l] stores an unrevealed promise. *)
Definition storeFree (l : list event) : Prop :=
  forallb (fun ev => negb (unrevealedStore ev)) l = true.

(** The message under which each return statement reports its error. *)
Definition returnMessage (at_ : returnPoint) : string :=
  match at_ with
  | AtChannelID => "could not generate provider channel address"
  | AtMarshal => "could not marshal R recovery details"
  | AtEncrypt => "could not encrypt R"
  | AtHermesCaller => "could not get hermes caller"
  | AtRequestPromise => "hermes request promise error"
  | AtStore => "could not store hermes promise"
  | AtRevealR => "hermes reveal r error"
  | AtEnd => EmptyString
  end.

Section Runs.

Variable er : enqueuedRequest.
Variable aph : HermesPromiseHandler.

Definition hermesOf : CommonAddress := HexToAddress env (HermesID (em er)).

Definition detailsOf : rRecoveryDetails :=
  {| R := hex.EncodeToString (r er);
     DetailsAgreementID := AgreementID (em er) |}.

Definition requestOf (fee : BigInt) (encrypted : list Byte.byte)
  : RequestPromise_ :=
  {| ReqExchangeMessage := em er; TransactorFee := fee;
     RRecoveryData := hex.EncodeToString encrypted |}.

Definition recordOf (channelID : string) (promise : Promise)
  : HermesPromise :=
  {| ChannelID := channelID; HPIdentity := providerID er;
     HPHermesID := hermesOf; HPPromise := promise;
     HPR := hex.EncodeToString (r er); Revealed := false;
     HPAgreementID := AgreementID (em er) |}.

Definition published (promise : Promise) : list event :=
  [EvPublish AppTopicHermesPromise
     (AppEventHermesPromise promise hermesOf (providerID er));
   EvPublish AppTopicTokensEarned
     (AppEventTokensEarned (providerID er) (sessionID er)
        (AgreementTotal (em er)))].

(** The fee leg: nothing, or one fetch when the cached fee is invalid. *)
Inductive feeLeg : list event -> Prop :=
| fee_valid :
    IsValid env (trace aph) (transactorFee aph) = true -> feeLeg []
| fee_fetched :
    IsValid env (trace aph) (transactorFee aph) = false ->
    feeLeg [EvFetchSettleFees (FlagChainID env)].

(** The request leg: the fee leg, the resolution of the hermes and the
    request, which carries the encrypted recovery details, then the
    error handling of its answer. *)
Inductive requestLeg (channelID : string) (promise : Promise)
  : list event -> Prop :=
| request_leg fee plaintext encrypted url feeValue handling :
    GenerateProviderChannelID env (Address (providerID er))
      (AddressHex env hermesOf) = Ok channelID ->
    feeLeg fee ->
    jsonMarshal env detailsOf = Ok plaintext ->
    Encrypt env (ToCommonAddress (providerID er)) plaintext = Ok encrypted ->
    GetHermesURL env (trace aph ++ fee) hermesOf = Ok url ->
    promise =
      fst (HermesRequestPromise env
             (trace aph ++ fee ++ [EvGetHermesURL hermesOf]) url
             (requestOf feeValue encrypted)) ->
    forallb calm handling = true ->
    requestLeg channelID promise
      (fee ++ [EvGetHermesURL hermesOf;
               EvRequestPromise url (requestOf feeValue encrypted)]
           ++ handling).

Inductive requestRun : returnPoint -> list event -> Prop :=
| run_channel e :
    GenerateProviderChannelID env (Address (providerID er))
      (AddressHex env hermesOf) = Err e ->
    requestRun AtChannelID
      [EvChanSend (errChan er) (Errorf (returnMessage AtChannelID) e)]
| run_marshal fee e :
    feeLeg fee ->
    jsonMarshal env detailsOf = Err e ->
    requestRun AtMarshal
      (fee ++ [EvChanSend (errChan er) (Errorf (returnMessage AtMarshal) e)])
| run_encrypt fee plaintext e :
    feeLeg fee ->
    jsonMarshal env detailsOf = Ok plaintext ->
    Encrypt env (ToCommonAddress (providerID er)) plaintext = Err e ->
    requestRun AtEncrypt
      (fee ++ [EvChanSend (errChan er) (Errorf (returnMessage AtEncrypt) e)])
| run_caller fee e :
    feeLeg fee ->
    GetHermesURL env (trace aph ++ fee) hermesOf = Err e ->
    requestRun AtHermesCaller
      (fee ++ [EvGetHermesURL hermesOf;
               EvChanSend (errChan er)
                 (Errorf (returnMessage AtHermesCaller)
                    (Errorf "could not get hermes URL" e))])
| run_request channelID promise leg e :
    requestLeg channelID promise leg ->
    requestRun AtRequestPromise
      (leg ++ [EvChanSend (errChan er)
                 (Errorf (returnMessage AtRequestPromise) e)])
| run_store channelID promise leg e :
    requestLeg channelID promise leg ->
    Store env (trace aph ++ leg) (recordOf channelID promise) = Some e ->
    Is e ErrAttemptToOverwrite = false ->
    requestRun AtStore
      (leg ++ [EvStore (recordOf channelID promise);
               EvChanSend (errChan er) (Errorf (returnMessage AtStore) e)])
| run_reveal channelID promise leg reveal e :
    requestLeg channelID promise leg ->
    match Store env (trace aph ++ leg) (recordOf channelID promise) with
    | Some e => Is e ErrAttemptToOverwrite = true
    | None => True
    end ->
    forallb revealing reveal = true ->
    requestRun AtRevealR
      (leg ++ EvStore (recordOf channelID promise) :: published promise
           ++ reveal
           ++ [EvChanSend (errChan er) (Errorf (returnMessage AtRevealR) e)])
| run_end channelID promise leg reveal :
    requestLeg channelID promise leg ->
    match Store env (trace aph ++ leg) (recordOf channelID promise) with
    | Some e => Is e ErrAttemptToOverwrite = true
    | None => True
    end ->
    forallb revealing reveal = true ->
    requestRun AtEnd
      (leg ++ EvStore (recordOf channelID promise) :: published promise
           ++ reveal).

End Runs.

(** A storage that reports success wherever [env]'s storage reports an
    attempt to overwrite. *)
Definition forgiving : Env :=
  {| HexToAddress := HexToAddress env; AddressHex := AddressHex env;
     GenerateProviderChannelID := GenerateProviderChannelID env;
     jsonMarshal := jsonMarshal env; jsonUnmarshal := jsonUnmarshal env;
     FlagChainID := FlagChainID env; Encrypt := Encrypt env;
     Decrypt := Decrypt env; IsValid := IsValid env;
     FetchSettleFees := FetchSettleFees env;
     GetHermesURL := GetHermesURL env;
     HermesRequestPromise := HermesRequestPromise env;
     HermesRevealR := HermesRevealR env;
     Store := fun t hp =>
       match Store env t hp with
       | Some e => if Is e ErrAttemptToOverwrite then None else Some e
       | None => None
       end |}.

End Handler.
End pingpong.

(** ** The session manager (package service) *)
Module service.

(** [market.ServiceProposal], the fields the manager reads. *)
Record ServiceProposal := {
  ProposalID : Z;
  ServiceType : string;
  ProviderID : string
}.

(** Channels made by [make(chan struct{})] are named by the order of
    their creation; [None] is the nil channel of a zero [Session]. *)
Definition chan := nat.

Record Session := {
  ID : string;
  ServiceID : string;
  ConsumerID : Identity;
  AccountantID : CommonAddress;
  Proposal : ServiceProposal;
  CreatedAt : Z;
  done : option chan
}.

(** [Session{}] *)
Definition zeroSession : Session :=
  {| ID := EmptyString; ServiceID := EmptyString;
     ConsumerID := {| Address := EmptyString |};
     AccountantID := EmptyString;
     Proposal := {| ProposalID := 0; ServiceType := EmptyString;
                    ProviderID := EmptyString |};
     CreatedAt := 0; done := None |}.

Record KeepAliveConfig := {
  SendInterval : Z;
  SendTimeout : Z;
  MaxSendErrCount : Z
}.

Record Config := { KeepAlive : KeepAliveConfig }.

(** Durations in nanoseconds. *)
Definition Second : Z := 1000000000.
Definition Minute : Z := 60 * Second.

Definition DefaultConfig : Config :=
  {| KeepAlive := {| SendInterval := 3 * Minute;
                     SendTimeout := 5 * Second;
                     MaxSendErrCount := 5 |} |}.

Record FindOpts := { Peer : option Identity; FindServiceType : string }.

(** Payment engines are named by the order in which the factory made
    them. *)
Definition engine := nat.

(** Goroutines are named by numbers; the mutex records its holder. *)
Definition gid := nat.

(** A [go] statement of the manager, waiting to be scheduled. *)
Inductive goroutine :=
| GoStopEngine (s : Session) (e : engine)   (* <-session.done; engine.Stop() *)
| GoEngineStart (s : Session) (e : engine)  (* engine.Start(), destroy on error *)
| GoKeepAliveLoop (s : Session)
| GoDestroySession (s : Session).

(** What the manager does to its collaborators, in order. *)
Inductive event :=
| EvNewSession
| EvNow
| EvPaymentEngineFactory (provider consumer : Identity)
    (accountant : CommonAddress) (sessionID : string)
| EvEngineStart (e : engine)
| EvWaitFirstInvoice (e : engine) (timeout : Z)
| EvEngineStop (e : engine)
| EvPublishSession (s : Session)            (* acknowledged status *)
| EvChannelHandle                           (* handler on the keep-alive topic *)
| EvChannelSend (sessionID : string) (timeout : Z)
| EvChannelClose.

(** The collaborators; each answers as a function of what the manager has
    done so far. *)
Record Env := {
  NewSessionID : list event -> result string;
  Now : list event -> Z;
  paymentEngineFactory :
    list event -> Identity -> Identity -> CommonAddress -> string ->
    result engine;
  EngineStart : list event -> engine -> option error;
  WaitFirstInvoice : list event -> engine -> Z -> option error;
  ChannelSend : list event -> string -> option error
}.

(** The manager and the part of the world its methods touch.

    Modelled from the spec: the session store ([Storage], whose
    implementation is not part of the sources): a mapping from session id
    to session; [Add] overwrites, [Find] is by id, [FindBy] is by peer and
    service type, [Remove] is idempotent. *)
Record SessionManager := {
  currentProposal : ServiceProposal;
  serviceId : string;
  config : Config;
  channel : bool;                       (* false: the nil channel *)
  sessionStorage : gmap string Session;
  creationLock : option gid;            (* the holder of the mutex *)
  made : nat;                           (* channels made so far *)
  closed : list chan;                   (* the channels closed so far *)
  channelClosed : bool;                 (* the p2p channel was closed *)
  goroutines : list goroutine;
  trace : list event
}.

Definition withStorage (st : gmap string Session) (m : SessionManager)
  : SessionManager :=
  {| currentProposal := currentProposal m; serviceId := serviceId m;
     config := config m; channel := channel m; sessionStorage := st;
     creationLock := creationLock m; made := made m; closed := closed m;
     channelClosed := channelClosed m; goroutines := goroutines m;
     trace := trace m |}.

Definition withLockHolder (h : option gid) (m : SessionManager)
  : SessionManager :=
  {| currentProposal := currentProposal m; serviceId := serviceId m;
     config := config m; channel := channel m;
     sessionStorage := sessionStorage m;
     creationLock := h; made := made m; closed := closed m;
     channelClosed := channelClosed m; goroutines := goroutines m;
     trace := trace m |}.

Definition withChans (n : nat) (cl : list chan) (m : SessionManager)
  : SessionManager :=
  {| currentProposal := currentProposal m; serviceId := serviceId m;
     config := config m; channel := channel m;
     sessionStorage := sessionStorage m;
     creationLock := creationLock m; made := n; closed := cl;
     channelClosed := channelClosed m; goroutines := goroutines m;
     trace := trace m |}.

Definition withChannelClosed (b : bool) (m : SessionManager)
  : SessionManager :=
  {| currentProposal := currentProposal m; serviceId := serviceId m;
     config := config m; channel := channel m;
     sessionStorage := sessionStorage m;
     creationLock := creationLock m; made := made m; closed := closed m;
     channelClosed := b; goroutines := goroutines m;
     trace := trace m |}.

Definition withGoroutines (gs : list goroutine) (m : SessionManager)
  : SessionManager :=
  {| currentProposal := currentProposal m; serviceId := serviceId m;
     config := config m; channel := channel m;
     sessionStorage := sessionStorage m;
     creationLock := creationLock m; made := made m; closed := closed m;
     channelClosed := channelClosed m; goroutines := gs;
     trace := trace m |}.

Definition withTrace (t : list event) (m : SessionManager)
  : SessionManager :=
  {| currentProposal := currentProposal m; serviceId := serviceId m;
     config := config m; channel := channel m;
     sessionStorage := sessionStorage m;
     creationLock := creationLock m; made := made m; closed := closed m;
     channelClosed := channelClosed m; goroutines := goroutines m;
     trace := t |}.

(** How a call of a goroutine ends: it returns, it is parked at a blocking
    operation, or it panics. *)
Inductive outcome (A : Type) :=
| Returns (a : A)
| Blocks
| Panics (msg : string).
Arguments Returns {A} a.
Arguments Blocks {A}.
Arguments Panics {A} msg.

Definition M (A : Type) : Type := SessionManager -> outcome A * SessionManager.

Definition ret {A} (a : A) : M A := fun m => (Returns a, m).

Definition bind {A B} (c : M A) (k : A -> M B) : M B :=
  fun m =>
    match c m with
    | (Returns a, m') => k a m'
    | (Blocks, m') => (Blocks, m')
    | (Panics msg, m') => (Panics msg, m')
    end.

Notation "'let*' x ':=' c 'in' k" := (bind c (fun x => k))
  (at level 10, x pattern, c at level 100, k at level 200).

Definition panic {A} (msg : string) : M A := fun m => (Panics msg, m).

Definition emit (ev : event) : M unit :=
  fun m => (Returns tt, withTrace (trace m ++ [ev]) m).

Definition call {A} (ev : event) (answer : list event -> A) : M A :=
  fun m => (Returns (answer (trace m)), withTrace (trace m ++ [ev]) m).

(** [go f()] *)
Definition go (g : goroutine) : M unit :=
  fun m => (Returns tt, withGoroutines (goroutines m ++ [g]) m).

(** [make(chan struct{})] *)
Definition makeChan : M chan :=
  fun m => (Returns (made m), withChans (S (made m)) (closed m) m).

Definition isClosed (c : chan) (m : SessionManager) : bool :=
  existsb (Nat.eqb c) (closed m).

(** [close(c)]: closing the nil channel or a closed channel panics. *)
Definition close (c : option chan) : M unit :=
  fun m =>
    match c with
    | None => (Panics "close of nil channel", m)
    | Some c =>
        if isClosed c m then (Panics "close of closed channel", m)
        else (Returns tt, withChans (made m) (c :: closed m) m)
    end.

(** [creationLock.Lock(); defer creationLock.Unlock()] around [body], run
    by goroutine [g].  [sync.Mutex] is not reentrant: [Lock] on a held mutex
    parks the caller, whoever the holder is.  The deferred [Unlock] runs
    when [body] returns or panics, not while it is parked. *)
Definition locked {A} (g : gid) (body : M A) : M A :=
  fun m =>
    match creationLock m with
    | Some _ => (Blocks, m)
    | None =>
        match body (withLockHolder (Some g) m) with
        | (Returns a, m') => (Returns a, withLockHolder None m')
        | (Panics msg, m') => (Panics msg, withLockHolder None m')
        | (Blocks, m') => (Blocks, m')
        end
    end.

(** The session store. *)
Definition Add (s : Session) : M unit :=
  fun m => (Returns tt, withStorage (<[ID s := s]> (sessionStorage m)) m).

Definition Find (id : string) : M (option Session) :=
  fun m => (Returns (sessionStorage m !! id), m).

Definition matches (opts : FindOpts) (s : Session) : bool :=
  match Peer opts with
  | Some p => Identity_eqb p (ConsumerID s)
  | None => true
  end && String.eqb (FindServiceType opts) (ServiceType (Proposal s)).

Definition FindBy (opts : FindOpts) : M (option Session) :=
  fun m =>
    (Returns (List.find (matches opts)
                (List.map snd (map_to_list (sessionStorage m)))), m).

Definition Remove (id : string) : M unit :=
  fun m => (Returns tt, withStorage (delete id (sessionStorage m)) m).

Section Manager.

Variable env : Env.

Definition destroySession (g : gid) (session : Session) : M unit :=
  locked g (
    let* _ := Remove (ID session) in
    close (done session)).

Definition clearStaleSession (consumerID : Identity) (serviceType : string)
  : M unit :=
  let* found := FindBy {| Peer := Some consumerID;
                          FindServiceType := serviceType |} in
  match found with
  | Some session => go (GoDestroySession session)
  | None => ret tt
  end.

(** [Start], run by goroutine [g]. *)
Definition Start (g : gid) (consumerID : Identity)
    (accountantID : CommonAddress) (proposalID : Z)
  : M (Session * option error) :=
  locked g (fun m =>
    (if negb (Z.eqb (ProposalID (currentProposal m)) proposalID)
     then ret (zeroSession, Some (Sentinel ErrorInvalidProposal))
     else
     let* _ := clearStaleSession consumerID
                 (ServiceType (currentProposal m)) in
     let* id := call EvNewSession (NewSessionID env) in
     match id with
     | Err err =>
         ret (zeroSession, Some (Errorf "cannot create new session" err))
     | Ok id =>
     let* ch := makeChan in
     let* now := call EvNow (Now env) in
     let session :=
       {| ID := id; ServiceID := serviceId m; ConsumerID := consumerID;
          AccountantID := accountantID; Proposal := currentProposal m;
          CreatedAt := now; done := Some ch |} in
     let provider := {| Address := ProviderID (currentProposal m) |} in
     let* e :=
       call (EvPaymentEngineFactory provider consumerID accountantID id)
            (fun t => paymentEngineFactory env t provider consumerID
                        accountantID id) in
     match e with
     | Err err => ret (session, Some err)
     | Ok engine =>
     let* _ := go (GoStopEngine session engine) in
     let* _ := go (GoEngineStart session engine) in
     let* err :=
       call (EvWaitFirstInvoice engine (30 * Second))
            (fun t => WaitFirstInvoice env t engine (30 * Second)) in
     match err with
     | Some err =>
         let* _ := destroySession g session in
         ret (session, Some (Errorf "first invoice was not paid" err))
     | None =>
     let* _ := go (GoKeepAliveLoop session) in
     let* _ := Add session in
     ret (session, None)
     end end end) m).

Definition Acknowledge (g : gid) (consumerID : Identity) (sessionID : string)
  : M (option error) :=
  locked g (
    let* found := Find sessionID in
    match found with
    | None => ret (Some (Sentinel ErrorSessionNotExists))
    | Some session =>
        if negb (Identity_eqb (ConsumerID session) consumerID)
        then ret (Some (Sentinel ErrorWrongSessionOwner))
        else
          let* _ := emit (EvPublishSession session) in
          ret None
    end).

(** [manager.channel.Close()]: a method call on the nil channel panics. *)
Definition channelClose : M unit :=
  fun m =>
    if channel m
    then (Returns tt,
          withChannelClosed true (withTrace (trace m ++ [EvChannelClose]) m))
    else (Panics "invalid memory address or nil pointer dereference", m).

Definition Destroy (g : gid) (consumerID : Identity) (sessionID : string)
  : M (option error) :=
  let* found := Find sessionID in
  match found with
  | None => ret (Some (Sentinel ErrorSessionNotExists))
  | Some session =>
      if negb (Identity_eqb (ConsumerID session) consumerID)
      then ret (Some (Sentinel ErrorWrongSessionOwner))
      else
        let* _ := channelClose in
        let* _ := destroySession g session in
        ret None
  end.

(** Go's [int] is 64 bits wide. *)
Definition wrap64 (z : Z) : Z := (z + 2 ^ 63) mod 2 ^ 64 - 2 ^ 63.

Definition sendKeepAlivePing (sessionID : string) : M (option error) :=
  fun m =>
    call (EvChannelSend sessionID (SendTimeout (KeepAlive (config m))))
         (fun t => ChannelSend env t sessionID) m.

(** The timer case of the [select]: one ping.  [None]: the loop returns;
    [Some n]: it goes on with the counter at [n]. *)
Definition keepAlivePing (sess : Session) (errCount : Z) : M (option Z) :=
  let* err := sendKeepAlivePing (ID sess) in
  match err with
  | Some _ =>
      let errCount := wrap64 (errCount + 1) in
      fun m =>
        (if Z.eqb errCount (MaxSendErrCount (KeepAlive (config m)))
         then let* _ := channelClose in ret None
         else ret (Some errCount)) m
  | None => ret (Some 0)
  end.

(** The case the [select] of the loop takes in one round. *)
Inductive selected := SelDone | SelTimer.

(** The [for] loop of [keepAliveLoop], for the rounds of [rounds].  The
    value is [None] when the loop has returned and the counter when it is
    still running.  The done case can only be taken on a closed channel. *)
Fixpoint keepAliveRounds (sess : Session) (errCount : Z)
    (rounds : list selected) : M (option Z) :=
  match rounds with
  | [] => ret (Some errCount)
  | SelDone :: _ =>
      fun m =>
        match done sess with
        | Some c => if isClosed c m then (Returns None, m) else (Blocks, m)
        | None => (Blocks, m)
        end
  | SelTimer :: rest =>
      let* next := keepAlivePing sess errCount in
      match next with
      | None => ret None
      | Some errCount => keepAliveRounds sess errCount rest
      end
  end.

Definition keepAliveLoop (sess : Session) (rounds : list selected)
  : M (option Z) :=
  fun m =>
    (if negb (channel m) then ret None
     else
       let* _ := emit EvChannelHandle in
       keepAliveRounds sess 0 rounds) m.

(** One scheduled [go] statement, run by goroutine [g]. *)
Definition run (g : gid) (task : goroutine) (rounds : list selected)
  : M unit :=
  match task with
  | GoStopEngine s e =>
      fun m =>
        match done s with
        | Some c =>
            if isClosed c m then emit (EvEngineStop e) m else (Blocks, m)
        | None => (Blocks, m)
        end
  | GoEngineStart s e =>
      let* err := call (EvEngineStart e) (fun t => EngineStart env t e) in
      match err with
      | Some _ => destroySession g s
      | None => ret tt
      end
  | GoKeepAliveLoop s =>
      let* _ := keepAliveLoop s rounds in ret tt
  | GoDestroySession s => destroySession g s
  end.

End Manager.

(** What the loop can change: the trace and the p2p channel. *)
Definition sameSession (m m' : SessionManager) : Prop :=
  currentProposal m' = currentProposal m /\
  serviceId m' = serviceId m /\
  config m' = config m /\
  channel m' = channel m /\
  sessionStorage m' = sessionStorage m /\
  creationLock m' = creationLock m /\
  made m' = made m /\
  closed m' = closed m /\
  goroutines m' = goroutines m.

End service.

(** ** Scenarios: concrete collaborators *)
Module Scenario.
Import service.

Definition consumerC : Identity := {| Address := "0xc0" |}.

Definition proposal7 : ServiceProposal :=
  {| ProposalID := 7; ServiceType := "vpn"; ProviderID := "0xp0" |}.

(** A payment engine whose first invoice is never paid. *)
Definition unpaidEnv : service.Env :=
  {| NewSessionID := fun _ => Ok "s1";
     Now := fun _ => 0;
     paymentEngineFactory := fun _ _ _ _ _ => Ok 0%nat;
     EngineStart := fun _ _ => None;
     WaitFirstInvoice := fun _ _ _ => Some (New "timeout");
     ChannelSend := fun _ _ => Some (New "send failed") |}.

Definition manager0 : SessionManager :=
  {| currentProposal := proposal7; serviceId := "svc";
     config := {| KeepAlive := {| SendInterval := 3 * Minute;
                                  SendTimeout := 5 * Second;
                                  MaxSendErrCount := 3 |} |};
     channel := true; sessionStorage := ∅; creationLock := None;
     made := 0; closed := []; channelClosed := false; goroutines := [];
     trace := [] |}.

Definition session1 : Session :=
  {| ID := "s1"; ServiceID := "svc"; ConsumerID := consumerC;
     AccountantID := "0xa0"; Proposal := proposal7; CreatedAt := 0;
     done := Some 0%nat |}.

(** [session1] admitted: in the store, its [done] made and open. *)
Definition manager1 : SessionManager :=
  withStorage (<[ "s1" := session1 ]> ∅) (withChans 1 [] manager0).

(** The hermes side. *)
Definition providerP : Identity := {| Address := "0xp0" |}.

Definition em42 : pingpong.ExchangeMessage :=
  {| pingpong.HermesID := "0xh0"; pingpong.AgreementID := Some 42;
     pingpong.AgreementTotal := Some 100; pingpong.ChainID := 1 |}.

Definition zeroPromise : pingpong.Promise :=
  {| pingpong.PromiseChainID := 0; pingpong.PromiseBody := EmptyString |}.

Definition promise1 : pingpong.Promise :=
  {| pingpong.PromiseChainID := 1; pingpong.PromiseBody := "signed" |}.

(** A stand-in for the JSON codec of the recovery details: the agreement
    id as one byte, then the bytes of R. *)
Definition mockMarshal (d : pingpong.rRecoveryDetails)
  : result (list Byte.byte) :=
  match pingpong.DetailsAgreementID d with
  | Some z =>
      if (0 <=? z)%Z && (z <? 256)%Z then
        match Byte.of_N (Z.to_N z) with
        | Some b => Ok (b :: list_byte_of_string (pingpong.R d))
        | None => Err (New "json: unsupported value")
        end
      else Err (New "json: unsupported value")
  | None => Err (New "json: unsupported value")
  end.

Definition mockUnmarshal (bs : list Byte.byte)
  : result pingpong.rRecoveryDetails :=
  match bs with
  | b :: rest =>
      Ok {| pingpong.R := string_of_list_byte rest;
            pingpong.DetailsAgreementID := Some (Z.of_N (Byte.to_N b)) |}
  | [] => Err (New "unexpected end of JSON input")
  end.

Definition requested (t : list pingpong.event) : bool :=
  existsb (fun ev => match ev with
                     | pingpong.EvRequestPromise _ _ => true
                     | _ => false
                     end) t.

Definition fee1 : pingpong.FeesResponse :=
  {| pingpong.Fee := Some 1; pingpong.ValidUntil := 0 |}.

(** The hermes of the recovery scenario: it answers the first request
    with [ErrNeedsRRecovery], handing back the recovery data of that
    request, and accepts every reveal. *)
Definition recoveryEnv : pingpong.Env :=
  {| pingpong.HexToAddress := fun a => a;
     pingpong.AddressHex := fun a => a;
     pingpong.GenerateProviderChannelID := fun a h => Ok (a ++ h)%string;
     pingpong.jsonMarshal := mockMarshal;
     pingpong.jsonUnmarshal := mockUnmarshal;
     pingpong.FlagChainID := 1;
     pingpong.Encrypt := fun _ bs => Ok (rev bs);
     pingpong.Decrypt := fun _ bs => Ok (rev bs);
     pingpong.IsValid := fun _ _ => true;
     pingpong.FetchSettleFees := fun _ _ => (fee1, None);
     pingpong.GetHermesURL := fun _ _ => Ok "https://hermes";
     pingpong.HermesRequestPromise := fun t _ rp =>
       if requested t then (promise1, None)
       else (zeroPromise,
             Some (HermesErrorResponse (pingpong.RRecoveryData rp)
                     (Sentinel ErrNeedsRRecovery)));
     pingpong.HermesRevealR := fun _ _ _ _ _ => None;
     pingpong.Store := fun _ _ => None |}.

(** A hermes that answers every reveal with [ErrNeedsRRecovery] and a
    payload that is not hexadecimal. *)
Definition brokenEnv : pingpong.Env :=
  {| pingpong.HexToAddress := fun a => a;
     pingpong.AddressHex := fun a => a;
     pingpong.GenerateProviderChannelID := fun a h => Ok (a ++ h)%string;
     pingpong.jsonMarshal := mockMarshal;
     pingpong.jsonUnmarshal := mockUnmarshal;
     pingpong.FlagChainID := 1;
     pingpong.Encrypt := fun _ bs => Ok (rev bs);
     pingpong.Decrypt := fun _ bs => Ok (rev bs);
     pingpong.IsValid := fun _ _ => true;
     pingpong.FetchSettleFees := fun _ _ => (fee1, None);
     pingpong.GetHermesURL := fun _ _ => Ok "https://hermes";
     pingpong.HermesRequestPromise := fun _ _ _ => (promise1, None);
     pingpong.HermesRevealR := fun _ _ _ _ _ =>
       Some (HermesErrorResponse "zz" (Sentinel ErrNeedsRRecovery));
     pingpong.Store := fun _ _ => None |}.

(** A storage that refuses every store as an attempt to overwrite. *)
Definition overwritingEnv : pingpong.Env :=
  {| pingpong.HexToAddress := fun a => a;
     pingpong.AddressHex := fun a => a;
     pingpong.GenerateProviderChannelID := fun a h => Ok (a ++ h)%string;
     pingpong.jsonMarshal := mockMarshal;
     pingpong.jsonUnmarshal := mockUnmarshal;
     pingpong.FlagChainID := 1;
     pingpong.Encrypt := fun _ bs => Ok (rev bs);
     pingpong.Decrypt := fun _ bs => Ok (rev bs);
     pingpong.IsValid := fun _ _ => true;
     pingpong.FetchSettleFees := fun _ _ => (fee1, None);
     pingpong.GetHermesURL := fun _ _ => Ok "https://hermes";
     pingpong.HermesRequestPromise := fun _ _ _ => (promise1, None);
     pingpong.HermesRevealR := fun _ _ _ _ _ => None;
     pingpong.Store := fun _ _ =>
       Some (Errorf "promise storage" (Sentinel ErrAttemptToOverwrite)) |}.

(** A storage that fails every store for a reason of its own. *)
Definition failingStoreEnv : pingpong.Env :=
  {| pingpong.HexToAddress := fun a => a;
     pingpong.AddressHex := fun a => a;
     pingpong.GenerateProviderChannelID := fun a h => Ok (a ++ h)%string;
     pingpong.jsonMarshal := mockMarshal;
     pingpong.jsonUnmarshal := mockUnmarshal;
     pingpong.FlagChainID := 1;
     pingpong.Encrypt := fun _ bs => Ok (rev bs);
     pingpong.Decrypt := fun _ bs => Ok (rev bs);
     pingpong.IsValid := fun _ _ => true;
     pingpong.FetchSettleFees := fun _ _ => (fee1, None);
     pingpong.GetHermesURL := fun _ _ => Ok "https://hermes";
     pingpong.HermesRequestPromise := fun _ _ _ => (promise1, None);
     pingpong.HermesRevealR := fun _ _ _ _ _ => None;
     pingpong.Store := fun _ _ => Some (New "disk full") |}.

Definition handler0 : pingpong.HermesPromiseHandler :=
  {| pingpong.queue := []; pingpong.stop := false;
     pingpong.stopOnce := false; pingpong.startOnce := false;
     pingpong.transactorFee := fee1; pingpong.nextChan := 0%nat;
     pingpong.trace := [] |}.

Definition request1 : pingpong.enqueuedRequest :=
  {| pingpong.errChan := 0%nat; pingpong.r := [Byte.xab];
     pingpong.em := em42; pingpong.providerID := providerP;
     pingpong.sessionID := "s1" |}.

Definition record1 : pingpong.HermesPromise :=
  {| pingpong.ChannelID := "0xp00xh0"; pingpong.HPIdentity := providerP;
     pingpong.HPHermesID := "0xh0"; pingpong.HPPromise := promise1;
     pingpong.HPR := "ab"; pingpong.Revealed := false;
     pingpong.HPAgreementID := Some 42 |}.

End Scenario.

(** * Properties of the session manager *)
Module ManagerFacts.
Import service.

Lemma withLockHolder_release (g : gid) (m : SessionManager) :
  creationLock m = None ->
  withLockHolder None (withLockHolder (Some g) m) = m.
Proof. destruct m; simpl; intros ->; reflexivity. Qed.

(** C7: a proposal id other than the current proposal's is refused with
    [ErrorInvalidProposal]; nothing is created, no engine is made, nothing
    is spawned and the store is as before: the manager is unchanged,
    whether [Start] got the lock or is still waiting for it. *)
Theorem Start_invalid_proposal (env : service.Env) (g : gid) (consumerID : Identity)
    (accountantID : CommonAddress) (proposalID : Z) (m : SessionManager) :
  proposalID <> ProposalID (currentProposal m) ->
  snd (Start env g consumerID accountantID proposalID m) = m /\
  (creationLock m = None ->
   fst (Start env g consumerID accountantID proposalID m)
   = Returns (zeroSession, Some (Sentinel ErrorInvalidProposal))).
Proof.
  intros Hne. unfold Start, locked.
  destruct (creationLock m) as [h|] eqn:Hlock; [split; [reflexivity|discriminate]|].
  cbn [currentProposal withLockHolder].
  destruct (Z.eqb_spec (ProposalID (currentProposal m)) proposalID) as [Heq|_];
    [congruence|].
  cbn. split; [|reflexivity].
  now apply withLockHolder_release.
Qed.

Lemma Start_invalid_proposal_witness :
  snd (Start Scenario.unpaidEnv 1%nat Scenario.consumerC "0xa0" 8
         Scenario.manager0) = Scenario.manager0 /\
  (creationLock Scenario.manager0 = None ->
   fst (Start Scenario.unpaidEnv 1%nat Scenario.consumerC "0xa0" 8
          Scenario.manager0)
   = Returns (zeroSession, Some (Sentinel ErrorInvalidProposal))).
Proof.
  apply (Start_invalid_proposal Scenario.unpaidEnv 1%nat Scenario.consumerC
           "0xa0" 8 Scenario.manager0).
  vm_compute. discriminate.
Defined.

(** Closing, locking and the store leave the configuration alone. *)
Lemma wrap64_small (z : Z) : - 2 ^ 63 <= z < 2 ^ 63 -> wrap64 z = z.
Proof.
  intros H. unfold wrap64.
  rewrite Z.mod_small by lia. lia.
Qed.

Lemma destroySession_unlocked (g : gid) (s : Session)
    (m : SessionManager) :
  creationLock m = None ->
  destroySession g s m =
    match done s with
    | None =>
        (Panics "close of nil channel",
         withStorage (delete (ID s) (sessionStorage m)) m)
    | Some c =>
        if isClosed c m
        then (Panics "close of closed channel",
              withStorage (delete (ID s) (sessionStorage m)) m)
        else (Returns tt,
              withChans (made m) (c :: closed m)
                (withStorage (delete (ID s) (sessionStorage m)) m))
    end.
Proof.
  intros Hl. unfold destroySession, locked. rewrite Hl.
  destruct m as [cp sid cfg ch st lk mk cl chc gs tr]; simpl in Hl; subst lk.
  unfold bind, Remove, close, isClosed; simpl.
  destruct (done s) as [c|]; simpl; [|reflexivity].
  destruct (existsb (Nat.eqb c) cl); reflexivity.
Qed.

Lemma destroySession_locked (g h : gid) (s : Session)
    (m : SessionManager) :
  creationLock m = Some h -> destroySession g s m = (Blocks, m).
Proof. intros Hl. unfold destroySession, locked. now rewrite Hl. Qed.

(** C1, on the code: [destroySession] closes [done] without a guard.  The
    first call for a session removes it and closes its [done]; a second
    call for the same session, by whatever path, is not a no-op: it
    panics on the closed channel. *)
Theorem destroySession_second_call_panics (g1 g2 : gid)
    (s : Session) (c : chan) (m : SessionManager) :
  creationLock m = None ->
  done s = Some c ->
  isClosed c m = false ->
  exists m1,
    destroySession g1 s m = (Returns tt, m1) /\
    isClosed c m1 = true /\
    sessionStorage m1 !! ID s = None /\
    fst (destroySession g2 s m1) = Panics "close of closed channel".
Proof.
  intros Hl Hd Hc.
  rewrite (destroySession_unlocked g1 s m Hl), Hd, Hc.
  eexists; split; [reflexivity|].
  assert (Hc1 : isClosed c
            (withChans (made m) (c :: closed m)
               (withStorage (delete (ID s) (sessionStorage m)) m)) = true).
  { unfold isClosed; simpl. now rewrite Nat.eqb_refl. }
  split; [exact Hc1|]. split.
  - simpl. apply lookup_delete_eq.
  - rewrite destroySession_unlocked by (destruct m; exact Hl).
    rewrite Hd, Hc1. reflexivity.
Qed.

Lemma destroySession_second_call_panics_witness :
  exists m1,
    destroySession 1%nat Scenario.session1
      Scenario.manager1 = (Returns tt, m1) /\
    isClosed 0%nat m1 = true /\
    sessionStorage m1 !! ID Scenario.session1 = None /\
    fst (destroySession 2%nat Scenario.session1 m1)
    = Panics "close of closed channel".
Proof.
  apply (destroySession_second_call_panics 1%nat 2%nat
           Scenario.session1 0%nat Scenario.manager1); reflexivity.
Defined.

(** C6, on the code: when [WaitFirstInvoice] fails, [Start] calls
    [destroySession] while it still holds [creationLock]; the call parks on
    the mutex its caller holds.  [Start] does not return, [done] stays open,
    the lock is never released, and from then on every [destroySession]
    parks too. *)
Theorem Start_first_invoice_error_blocks (env : service.Env) (g : gid)
    (consumerID : Identity) (accountantID : CommonAddress)
    (m : SessionManager) (id : string) (e : engine) (err : error) :
  let provider := {| Address := ProviderID (currentProposal m) |} in
  let built := EvPaymentEngineFactory provider consumerID accountantID id in
  creationLock m = None ->
  NewSessionID env (trace m) = Ok id ->
  paymentEngineFactory env (trace m ++ [EvNewSession; EvNow]) provider
    consumerID accountantID id = Ok e ->
  WaitFirstInvoice env (trace m ++ [EvNewSession; EvNow; built])
    e (30 * Second) = Some err ->
  let out :=
    Start env g consumerID accountantID (ProposalID (currentProposal m)) m in
  fst out = Blocks /\
  creationLock (snd out) = Some g /\
  closed (snd out) = closed m /\
  sessionStorage (snd out) = sessionStorage m /\
  forall g' s, destroySession g' s (snd out) = (Blocks, snd out).
Proof.
  intros provider built Hl Hid He Hw out.
  replace (trace m ++ [EvNewSession; EvNow])%list
    with ((trace m ++ [EvNewSession]) ++ [EvNow])%list in He
    by (now rewrite <- app_assoc).
  replace (trace m ++ [EvNewSession; EvNow; built])%list
    with (((trace m ++ [EvNewSession]) ++ [EvNow]) ++ [built])%list in Hw
    by (now rewrite <- !app_assoc).
  subst provider built.
  assert (Hout : fst out = Blocks /\ creationLock (snd out) = Some g /\
                 closed (snd out) = closed m /\
                 sessionStorage (snd out) = sessionStorage m).
  { subst out.
    destruct (Start env g consumerID accountantID
                (ProposalID (currentProposal m)) m) as [o m'] eqn:E.
    unfold Start, locked in E. rewrite Hl in E.
    cbn [currentProposal withLockHolder] in E.
    rewrite Z.eqb_refl in E. cbn [negb] in E.
    unfold bind at 1 in E. unfold clearStaleSession in E.
    unfold bind at 1 in E. unfold FindBy at 1 in E.
    destruct (List.find _ _) as [stale|] in E; cbn -[Z.mul] in E;
      rewrite Hid in E; cbn -[Z.mul] in E;
      rewrite He in E; cbn -[Z.mul] in E;
      rewrite Hw in E;
      cbn -[Z.mul] in E; injection E as <- <-; cbn; auto. }
  destruct Hout as (H1 & H2 & H3 & H4).
  repeat split; try assumption.
  intros g' s. now apply destroySession_locked with (h := g).
Qed.

Lemma Start_first_invoice_error_blocks_witness :
  let out :=
    Start Scenario.unpaidEnv 1%nat Scenario.consumerC "0xa0" 7
      Scenario.manager0 in
  fst out = Blocks /\
  creationLock (snd out) = Some 1%nat /\
  closed (snd out) = closed Scenario.manager0 /\
  sessionStorage (snd out) = sessionStorage Scenario.manager0 /\
  forall g' s, destroySession g' s (snd out) = (Blocks, snd out).
Proof.
  exact (Start_first_invoice_error_blocks Scenario.unpaidEnv 1%nat
           Scenario.consumerC "0xa0" Scenario.manager0 "s1" 0%nat
           (New "timeout") eq_refl eq_refl eq_refl eq_refl).
Defined.

(** *** The keep-alive loop *)

Lemma sameSession_refl m : sameSession m m.
Proof. repeat split. Qed.

Lemma sameSession_trans m1 m2 m3 :
  sameSession m1 m2 -> sameSession m2 m3 -> sameSession m1 m3.
Proof.
  unfold sameSession. intros (?&?&?&?&?&?&?&?&?) (?&?&?&?&?&?&?&?&?).
  repeat split; congruence.
Qed.

(** One ping, by cases on the answer of the channel. *)
Lemma keepAlivePing_eq (env : service.Env) (sess : Session) (errCount : Z)
    (m : SessionManager) :
  let sent :=
    withTrace (trace m ++
                 [EvChannelSend (ID sess) (SendTimeout (KeepAlive (config m)))])
      m in
  keepAlivePing env sess errCount m =
    match ChannelSend env (trace m) (ID sess) with
    | None => (Returns (Some 0), sent)
    | Some _ =>
        if Z.eqb (wrap64 (errCount + 1)) (MaxSendErrCount (KeepAlive (config m)))
        then
          if channel m
          then (Returns None,
                withChannelClosed true
                  (withTrace (trace sent ++ [EvChannelClose]) sent))
          else (Panics "invalid memory address or nil pointer dereference",
                sent)
        else (Returns (Some (wrap64 (errCount + 1))), sent)
    end.
Proof.
  unfold keepAlivePing, sendKeepAlivePing, bind, call.
  destruct (ChannelSend env (trace m) (ID sess)); [|reflexivity].
  cbn [config withTrace].
  destruct (Z.eqb _ _); [|reflexivity].
  unfold channelClose, bind; cbn [channel withTrace].
  destruct (channel m); reflexivity.
Qed.

Lemma keepAlivePing_same (env : service.Env) (sess : Session) (errCount : Z)
    (m : SessionManager) :
  sameSession m (snd (keepAlivePing env sess errCount m)).
Proof.
  rewrite keepAlivePing_eq.
  destruct (ChannelSend _ _ _); [|repeat split].
  destruct (Z.eqb _ _); [|repeat split].
  destruct (channel m); repeat split.
Qed.

Lemma keepAliveRounds_same (env : service.Env) (sess : Session)
    (rounds : list selected) :
  forall (errCount : Z) (m : SessionManager),
    sameSession m (snd (keepAliveRounds env sess errCount rounds m)).
Proof.
  induction rounds as [|sel rest IH]; intros errCount m.
  - apply sameSession_refl.
  - destruct sel; cbn [keepAliveRounds].
    + destruct (done sess) as [c|]; [destruct (isClosed c m)|];
        apply sameSession_refl.
    + unfold bind.
      pose proof (keepAlivePing_same env sess errCount m) as Hp.
      destruct (keepAlivePing env sess errCount m) as [[[n|]| |msg] m1];
        cbn [snd] in Hp |- *; try exact Hp.
      eapply sameSession_trans; [exact Hp|apply IH].
Qed.

Lemma keepAliveLoop_same (env : service.Env) (sess : Session)
    (rounds : list selected) (m : SessionManager) :
  sameSession m (snd (keepAliveLoop env sess rounds m)).
Proof.
  unfold keepAliveLoop.
  destruct (channel m); cbn [negb]; [|apply sameSession_refl].
  unfold bind, emit.
  eapply sameSession_trans; [|apply keepAliveRounds_same].
  repeat split.
Qed.

(** With every send failing, the loop started at [errCount] returns after
    the ping that brings the counter to the maximum, and closes the
    channel. *)
Lemma keepAliveRounds_exhaust (env : service.Env) (sess : Session)
    (k : nat) :
  forall (errCount : Z) (m : SessionManager),
    (forall t, ChannelSend env t (ID sess) <> None) ->
    channel m = true ->
    0 <= errCount ->
    errCount + Z.of_nat (S k) = MaxSendErrCount (KeepAlive (config m)) ->
    MaxSendErrCount (KeepAlive (config m)) < 2 ^ 63 ->
    let out := keepAliveRounds env sess errCount (repeat SelTimer (S k)) m in
    fst out = Returns None /\
    channelClosed (snd out) = true /\
    trace (snd out) =
      (trace m ++
       repeat (EvChannelSend (ID sess) (SendTimeout (KeepAlive (config m))))
         (S k) ++ [EvChannelClose])%list.
Proof.
  induction k as [|k IH]; intros errCount m Hfail Hch Hpos Hmax Hbound out;
    subst out.
  - cbn [repeat keepAliveRounds]. unfold bind.
    rewrite keepAlivePing_eq.
    destruct (ChannelSend env (trace m) (ID sess)) eqn:Hs;
      [|exfalso; eapply Hfail; eassumption].
    rewrite wrap64_small by lia.
    replace (errCount + 1) with (MaxSendErrCount (KeepAlive (config m)))
      by lia.
    rewrite Z.eqb_refl, Hch. cbn. rewrite <- app_assoc. auto.
  - change (repeat SelTimer (S (S k)))
      with (SelTimer :: repeat SelTimer (S k)).
    cbn [keepAliveRounds]. unfold bind.
    rewrite keepAlivePing_eq.
    destruct (ChannelSend env (trace m) (ID sess)) eqn:Hs;
      [|exfalso; eapply Hfail; eassumption].
    rewrite wrap64_small by lia.
    destruct (Z.eqb_spec (errCount + 1)
                (MaxSendErrCount (KeepAlive (config m)))) as [Heq|Hne];
      [lia|].
    set (m1 := withTrace _ m).
    destruct (IH (errCount + 1) m1 Hfail Hch ltac:(lia)
                ltac:(subst m1; cbn [config withTrace]; lia)
                ltac:(subst m1; cbn [config withTrace]; lia))
      as (H1 & H2 & H3).
    split; [exact H1|]. split; [exact H2|].
    rewrite H3. subst m1. cbn [trace config withTrace].
    rewrite <- app_assoc. reflexivity.
Qed.

(** C8: the counter of the keep-alive loop.  A failed send brings the
    counter from [errCount] to [errCount + 1], a successful send to zero;
    the ping that brings it to [MaxSendErrCount] closes the p2p channel and
    ends the loop, and no other ping closes the channel.  With every send
    failing the loop ends at the [MaxSendErrCount]-th ping.  Whatever the
    loop does, the session is untouched: no [done] channel is closed, the
    store is as before, nothing is spawned and the lock is not taken. *)
Theorem keepAliveLoop_counter (env : service.Env) (sess : Session)
    (m : SessionManager) :
  (forall errCount, 0 <= errCount < 2 ^ 63 - 1 -> channel m = true ->
     let max := MaxSendErrCount (KeepAlive (config m)) in
     let out := keepAlivePing env sess errCount m in
     match ChannelSend env (trace m) (ID sess) with
     | None =>
         fst out = Returns (Some 0) /\
         channelClosed (snd out) = channelClosed m
     | Some _ =>
         if Z.eqb (errCount + 1) max
         then fst out = Returns None /\ channelClosed (snd out) = true
         else fst out = Returns (Some (errCount + 1)) /\
              channelClosed (snd out) = channelClosed m
     end) /\
  (forall n : nat,
     channel m = true ->
     (forall t, ChannelSend env t (ID sess) <> None) ->
     MaxSendErrCount (KeepAlive (config m)) = Z.of_nat (S n) ->
     Z.of_nat (S n) < 2 ^ 63 ->
     let out := keepAliveLoop env sess (repeat SelTimer (S n)) m in
     fst out = Returns None /\ channelClosed (snd out) = true /\
     List.length (List.filter
               (fun ev => match ev with EvChannelSend _ _ => true
                                      | _ => false end)
               (trace (snd out))) =
     (List.length (List.filter
               (fun ev => match ev with EvChannelSend _ _ => true
                                      | _ => false end)
               (trace m)) + S n)%nat) /\
  (forall rounds,
     let out := keepAliveLoop env sess rounds m in
     closed (snd out) = closed m /\
     sessionStorage (snd out) = sessionStorage m /\
     goroutines (snd out) = goroutines m /\
     creationLock (snd out) = creationLock m).
Proof.
  split; [|split].
  - intros errCount Hr Hch max out. subst out max.
    rewrite keepAlivePing_eq. rewrite wrap64_small by lia.
    destruct (ChannelSend env (trace m) (ID sess)); [|split; reflexivity].
    destruct (Z.eqb _ _); [rewrite Hch|]; split; reflexivity.
  - intros n Hch Hfail Hmax Hbound out. subst out.
    unfold keepAliveLoop. rewrite Hch. cbn [negb]. unfold bind, emit.
    set (m1 := withTrace _ m).
    destruct (keepAliveRounds_exhaust env sess n 0 m1 Hfail Hch ltac:(lia)
                ltac:(subst m1; cbn [config withTrace]; lia)
                ltac:(subst m1; cbn [config withTrace]; lia))
      as (H1 & H2 & H3).
    split; [exact H1|]. split; [exact H2|].
    rewrite H3. subst m1. cbn [trace config withTrace].
    rewrite !List.filter_app, !List.length_app.
    set (f := fun ev => _).
    assert (Hrep : forall j ev, f ev = true ->
              List.length (List.filter f (repeat ev j)) = j).
    { intros j ev Hev. induction j as [|j IHj]; [reflexivity|].
      cbn [repeat List.filter]. rewrite Hev. cbn [List.length].
      now rewrite IHj. }
    rewrite Hrep by reflexivity. cbn. lia.
  - intros rounds out. subst out.
    destruct (keepAliveLoop_same env sess rounds m)
      as (_&_&_&_&Hs&Hl&_&Hc&Hg).
    auto.
Qed.

Lemma keepAliveLoop_counter_witness :
  let out :=
    keepAliveLoop Scenario.unpaidEnv Scenario.session1
      (repeat SelTimer 3) Scenario.manager1 in
  fst out = Returns None /\ channelClosed (snd out) = true /\
  closed (snd out) = [] /\
  sessionStorage (snd out) !! "s1" = Some Scenario.session1.
Proof.
  pose proof (keepAliveLoop_counter Scenario.unpaidEnv Scenario.session1
                Scenario.manager1) as (_ & Hexhaust & Hsame).
  destruct (Hexhaust 2%nat eq_refl ltac:(discriminate) eq_refl eq_refl)
    as (H1 & H2 & _).
  destruct (Hsame (repeat SelTimer 3)) as (H3 & H4 & _).
  split; [exact H1|]. split; [exact H2|]. split; [exact H3|].
  rewrite H4. reflexivity.
Defined.

End ManagerFacts.

(** * Properties of the hermes promise handler *)
Module HandlerFacts.
Import pingpong.

Lemma decode_encode_byte (b : Byte.byte) :
  let v := Byte.to_N b in
  hex.fromHexChar (hex.hextable (N.shiftr v 4)) = Some (N.shiftr v 4) /\
  hex.fromHexChar (hex.hextable (N.land v 15)) = Some (N.land v 15) /\
  Byte.of_N (N.lor (N.shiftl (N.shiftr v 4) 4) (N.land v 15)) = Some b.
Proof. destruct b; vm_compute; auto. Qed.

(** Decoding inverts encoding. *)
Lemma DecodeString_EncodeToString (bs : list Byte.byte) :
  hex.DecodeString (hex.EncodeToString bs) = Ok bs.
Proof.
  induction bs as [|b bs IH]; [reflexivity|].
  destruct (decode_encode_byte b) as (Hh & Hl & Hb).
  cbn [hex.EncodeToString hex.DecodeString].
  cbv zeta in Hh, Hl, Hb.
  rewrite Hh, Hl, IH, Hb. reflexivity.
Qed.


(** A chain ends in one leaf: it matches at most one sentinel. *)
Lemma Is_unique (e : error) (s1 s2 : sentinel) :
  Is e s1 = true -> Is e s2 = true -> s1 = s2.
Proof.
  induction e as [s|msg|msg c IH|data c IH]; cbn [Is]; auto;
    [|discriminate].
  destruct s, s1; try discriminate; destruct s2; try discriminate;
    reflexivity.
Qed.

Lemma revealR_skips (env : Env) (hp : HermesPromise)
    (aph : HermesPromiseHandler) :
  Revealed hp = true -> revealR env hp aph = (None, aph).
Proof. intros H. unfold revealR. rewrite H. reflexivity. Qed.

(** C10: a promise whose [Revealed] is already true is left alone:
    [revealR] returns nil at once and the handler is as before, so no
    hermes is resolved, nothing is revealed and nothing is stored. *)
Theorem revealR_revealed (env : Env) (hp : HermesPromise)
    (aph : HermesPromiseHandler) :
  Revealed hp = true -> revealR env hp aph = (None, aph).
Proof. intros H. unfold revealR. rewrite H. reflexivity. Qed.

Lemma revealR_revealed_witness :
  revealR Scenario.recoveryEnv (setRevealed true Scenario.record1)
    Scenario.handler0 = (None, Scenario.handler0).
Proof.
  apply (revealR_revealed Scenario.recoveryEnv
           (setRevealed true Scenario.record1) Scenario.handler0).
  reflexivity.
Defined.

(** C3: the error policy.  Nil passes; an error that is
    [ErrHermesNoPreviousPromise] becomes nil; an error that is
    [ErrNeedsRRecovery], carried by a structured hermes error, is answered
    by the recovery of R from its payload, and the result is nil exactly
    when the recovery succeeds and its failure otherwise; without a
    structured hermes error there is nothing to recover from and the
    result is an error; every other error comes back as it is, and the
    handler does nothing. *)
Theorem handleHermesError_policy (env : Env) (providerID : Identity)
    (hermesID : CommonAddress) (aph : HermesPromiseHandler) :
  handleHermesError env None providerID hermesID aph = (None, aph) /\
  (forall err, Is err ErrHermesNoPreviousPromise = true ->
     handleHermesError env (Some err) providerID hermesID aph = (None, aph)) /\
  (forall err data, Is err ErrNeedsRRecovery = true -> As err = Some data ->
     handleHermesError env (Some err) providerID hermesID aph
     = recoverR env data providerID hermesID aph) /\
  (forall err, Is err ErrNeedsRRecovery = true -> As err = None ->
     exists failure,
       handleHermesError env (Some err) providerID hermesID aph
       = (Some failure, aph)) /\
  (forall err, Is err ErrNeedsRRecovery = false ->
     Is err ErrHermesNoPreviousPromise = false ->
     handleHermesError env (Some err) providerID hermesID aph
     = (Some err, aph)).
Proof.
  repeat split.
  - intros err Hno. unfold handleHermesError.
    destruct (Is err ErrNeedsRRecovery) eqn:Hrec.
    + discriminate (Is_unique err _ _ Hrec Hno).
    + now rewrite Hno.
  - intros err data Hrec Has. unfold handleHermesError.
    rewrite Hrec, Has. unfold bind.
    destruct (recoverR env data providerID hermesID aph) as [[e|] aph'];
      reflexivity.
  - intros err Hrec Has. unfold handleHermesError.
    rewrite Hrec, Has. eexists. reflexivity.
  - intros err Hrec Hno. unfold handleHermesError.
    now rewrite Hrec, Hno.
Qed.

Lemma handleHermesError_policy_witness :
  handleHermesError Scenario.recoveryEnv
    (Some (Errorf "reveal" (Sentinel ErrHermesNoPreviousPromise)))
    Scenario.providerP "0xh0" Scenario.handler0 = (None, Scenario.handler0) /\
  handleHermesError Scenario.recoveryEnv
    (Some (HermesErrorResponse "zz" (Sentinel ErrNeedsRRecovery)))
    Scenario.providerP "0xh0" Scenario.handler0
  = recoverR Scenario.recoveryEnv "zz" Scenario.providerP "0xh0"
      Scenario.handler0 /\
  (exists failure,
     handleHermesError Scenario.recoveryEnv
       (Some (Sentinel ErrNeedsRRecovery))
       Scenario.providerP "0xh0" Scenario.handler0
     = (Some failure, Scenario.handler0)) /\
  handleHermesError Scenario.recoveryEnv (Some (New "connection refused"))
    Scenario.providerP "0xh0" Scenario.handler0
  = (Some (New "connection refused"), Scenario.handler0).
Proof.
  destruct (handleHermesError_policy Scenario.recoveryEnv Scenario.providerP
              "0xh0" Scenario.handler0) as (_ & Hno & Hrec & Hcast & Hother).
  split; [apply Hno; reflexivity|].
  split; [apply Hrec; reflexivity|].
  split; [apply Hcast; reflexivity|].
  apply Hother; reflexivity.
Defined.

(** C9, on the code: when the error handling of a failed reveal gives an
    error of its own, [revealR] does not return that error: it wraps the
    error the hermes call returned.  Here the hermes asks for a recovery
    with a payload that cannot be decoded; the handled error is the
    decoding failure, and the error [revealR] returns does not contain
    it. *)
Theorem revealR_returns_raw_error :
  let raw := HermesErrorResponse "zz" (Sentinel ErrNeedsRRecovery) in
  let handled :=
    Errorf "could not decode R recovery details" hex.InvalidByteError in
  let revealedAt :=
    withTrace [EvGetHermesURL "0xh0";
               EvRevealR "https://hermes" "ab" "0xp0" (Some 42)]
      Scenario.handler0 in
  HermesRevealR Scenario.brokenEnv [EvGetHermesURL "0xh0"] "https://hermes"
    "ab" "0xp0" (Some 42) = Some raw /\
  handleHermesError Scenario.brokenEnv (Some raw) Scenario.providerP "0xh0"
    revealedAt = (Some handled, revealedAt) /\
  revealR Scenario.brokenEnv Scenario.record1 Scenario.handler0
  = (Some (Errorf "could not reveal R" raw), revealedAt) /\
  ~ wraps (Errorf "could not reveal R" raw) handled.
Proof.
  cbv zeta. split; [reflexivity|]. split; [reflexivity|].
  split; [reflexivity|].
  intros H.
  inversion H as [|? c1 ? Hu1 H1]; subst.
  cbn in Hu1. injection Hu1 as <-.
  inversion H1 as [|? c2 ? Hu2 H2]; subst.
  cbn in Hu2. injection Hu2 as <-.
  inversion H2 as [|? c3 ? Hu3 H3]; subst.
  cbn in Hu3. discriminate.
Qed.

(** *** Traces of the legs *)

Lemma withTrace_nil (aph : HermesPromiseHandler) :
  withTrace (trace aph ++ []) aph = aph.
Proof. destruct aph; unfold withTrace; cbn. now rewrite app_nil_r. Qed.

Lemma getHermesCaller_eq (env : Env) (hermesID : CommonAddress)
    (aph : HermesPromiseHandler) :
  getHermesCaller env hermesID aph =
    (match GetHermesURL env (trace aph) hermesID with
     | Err err => Err (Errorf "could not get hermes URL" err)
     | Ok addr => Ok addr
     end,
     withTrace (trace aph ++ [EvGetHermesURL hermesID]) aph).
Proof.
  unfold getHermesCaller, call, bind, ret.
  destruct (GetHermesURL env (trace aph) hermesID); reflexivity.
Qed.

Lemma recoverR_run (env : Env) (data : string) (providerID : Identity)
    (hermesID : CommonAddress) (aph : HermesPromiseHandler) :
  exists new,
    snd (recoverR env data providerID hermesID aph)
    = withTrace (trace aph ++ new) aph /\
    forallb calm new = true.
Proof.
  unfold recoverR.
  destruct (hex.DecodeString data) as [decoded|e];
    [|exists []; split; [symmetry; apply withTrace_nil|reflexivity]].
  destruct (Decrypt env _ decoded) as [decrypted|e];
    [|exists []; split; [symmetry; apply withTrace_nil|reflexivity]].
  destruct (jsonUnmarshal env decrypted) as [res|e];
    [|exists []; split; [symmetry; apply withTrace_nil|reflexivity]].
  unfold bind at 1. rewrite getHermesCaller_eq.
  destruct (GetHermesURL env (trace aph) hermesID) as [url|e].
  - unfold bind, call, ret; cbn [trace withTrace fst snd].
    exists [EvGetHermesURL hermesID;
            EvRevealR url (R res) (Address providerID)
              (DetailsAgreementID res)].
    split; [|reflexivity].
    destruct (HermesRevealR env _ url _ _ _); cbn [snd]; unfold withTrace;
      cbn; rewrite <- app_assoc; reflexivity.
  - exists [EvGetHermesURL hermesID]. split; reflexivity.
Qed.

Lemma handleHermesError_run (env : Env) (err : option error)
    (providerID : Identity) (hermesID : CommonAddress)
    (aph : HermesPromiseHandler) :
  exists new,
    snd (handleHermesError env err providerID hermesID aph)
    = withTrace (trace aph ++ new) aph /\
    forallb calm new = true.
Proof.
  unfold handleHermesError.
  destruct err as [err|];
    [|exists []; split; [symmetry; apply withTrace_nil|reflexivity]].
  destruct (Is err ErrNeedsRRecovery).
  - destruct (As err) as [data|];
      [|exists []; split; [symmetry; apply withTrace_nil|reflexivity]].
    unfold bind.
    destruct (recoverR_run env data providerID hermesID aph)
      as (new & Hnew & Hcalm).
    destruct (recoverR env data providerID hermesID aph) as [[e|] aph'];
      cbn [snd] in Hnew |- *; exists new; auto.
  - destruct (Is err ErrHermesNoPreviousPromise);
      exists []; split; try reflexivity; symmetry; apply withTrace_nil.
Qed.

Lemma calm_revealing (l : list event) :
  forallb calm l = true -> forallb revealing l = true.
Proof.
  induction l as [|ev l IH]; [reflexivity|].
  cbn [forallb]. intros [Hev Hl]%andb_true_iff.
  rewrite (IH Hl), andb_true_r. now destruct ev.
Qed.

Lemma calm_not_unrevealed (l : list event) :
  forallb revealing l = true ->
  forallb (fun ev => negb (unrevealedStore ev)) l = true.
Proof.
  induction l as [|ev l IH]; [reflexivity|].
  cbn [forallb]. intros [Hev Hl]%andb_true_iff.
  rewrite (IH Hl), andb_true_r.
  destruct ev; try reflexivity. cbn in Hev |- *. now rewrite Hev.
Qed.

(** [revealR] on an unrevealed promise: it fails before the store, or it
    reaches the store of the revealed promise, which is its last call. *)
Lemma revealR_cases (env : Env) (hp : HermesPromise)
    (aph : HermesPromiseHandler) :
  Revealed hp = false ->
  exists handling,
    forallb calm handling = true /\
    ((exists e,
        revealR env hp aph = (Some e, withTrace (trace aph ++ handling) aph))
     \/
     revealR env hp aph =
       (match Store env (trace aph ++ handling) (setRevealed true hp) with
        | Some e =>
            if negb (Is e ErrAttemptToOverwrite)
            then Some (Errorf "could not store hermes promise" e)
            else None
        | None => None
        end,
        withTrace (trace aph ++ handling ++ [EvStore (setRevealed true hp)])
          aph)).
Proof.
  intros Hrev.
  destruct (revealR env hp aph) as [res final] eqn:E.
  unfold revealR in E. rewrite Hrev in E.
  unfold bind at 1 in E. rewrite getHermesCaller_eq in E.
  destruct (GetHermesURL env (trace aph) (HPHermesID hp)) as [url|e].
  2:{ exists [EvGetHermesURL (HPHermesID hp)]. split; [reflexivity|].
      left. injection E as <- <-. eexists. reflexivity. }
  unfold bind at 1 in E. unfold call at 1 in E. cbn [trace withTrace] in E.
  set (raw := HermesRevealR env _ url _ _ _) in E.
  unfold bind at 1 in E.
  match type of E with
  | context [handleHermesError env raw _ _ ?a] => set (aph1 := a) in E
  end.
  destruct (handleHermesError_run env raw (HPIdentity hp) (HPHermesID hp)
              aph1) as (new & Hnew & Hcalm).
  destruct (handleHermesError env raw (HPIdentity hp) (HPHermesID hp) aph1)
    as [handled aph2].
  cbn [snd] in Hnew. subst aph2.
  exists ([EvGetHermesURL (HPHermesID hp);
           EvRevealR url (HPR hp) (Address (HPIdentity hp))
             (HPAgreementID hp)] ++ new).
  split; [cbn [app forallb calm andb]; exact Hcalm|].
  assert (Haph : withTrace (trace aph1 ++ new) aph1
                 = withTrace
                     (trace aph ++
                      [EvGetHermesURL (HPHermesID hp);
                       EvRevealR url (HPR hp) (Address (HPIdentity hp))
                         (HPAgreementID hp)] ++ new) aph).
  { subst aph1. unfold withTrace; cbn. now rewrite <- !app_assoc. }
  rewrite Haph in E. clear Haph.
  destruct handled as [h|].
  - left. destruct raw; injection E as <- <-; eexists; reflexivity.
  - right. unfold bind, call, ret in E. cbn [trace withTrace] in E.
    rewrite <- E.
    destruct (Store env _ _) as [e|]; [destruct (Is e _)|]; cbn [negb];
      unfold withTrace; cbn; rewrite <- !app_assoc; reflexivity.
Qed.

Lemma revealR_run (env : Env) (hp : HermesPromise)
    (aph : HermesPromiseHandler) :
  exists new,
    snd (revealR env hp aph) = withTrace (trace aph ++ new) aph /\
    forallb revealing new = true.
Proof.
  destruct (Revealed hp) eqn:Hrev.
  - rewrite revealR_skips by exact Hrev.
    exists []. split; [symmetry; apply withTrace_nil|reflexivity].
  - destruct (revealR_cases env hp aph Hrev)
      as (handling & Hcalm & [[e ->]| ->]); cbn [snd].
    + exists handling. split; [reflexivity|now apply calm_revealing].
    + exists (handling ++ [EvStore (setRevealed true hp)]).
      split; [reflexivity|].
      rewrite forallb_app, (calm_revealing _ Hcalm). reflexivity.
Qed.

Lemma feeLeg_run (env : Env) (aph : HermesPromiseHandler) :
  exists fee,
    trace (snd ((if negb (IsValid env (trace aph) (transactorFee aph))
                 then updateFee env else ret tt) aph))
    = trace aph ++ fee /\
    feeLeg env aph fee.
Proof.
  destruct (IsValid env (trace aph) (transactorFee aph)) eqn:Hv; cbn [negb].
  - exists []. split; [cbn; now rewrite app_nil_r|now constructor].
  - exists [EvFetchSettleFees (FlagChainID env)].
    split; [|now constructor].
    unfold updateFee, bind, call.
    destruct (FetchSettleFees env (trace aph) (FlagChainID env))
      as [fees [e|]]; reflexivity.
Qed.

(** Every call of [requestPromise_body] is one of the runs. *)
Lemma requestPromise_body_run (env : Env) (er : enqueuedRequest)
    (aph : HermesPromiseHandler) :
  exists new,
    trace (snd (requestPromise_body env er aph)) = trace aph ++ new /\
    requestRun env er aph (fst (requestPromise_body env er aph)) new.
Proof.
  destruct (requestPromise_body env er aph) as [at_ final] eqn:E.
  cbn [fst snd].
  unfold requestPromise_body in E. cbv zeta in E.
  destruct (GenerateProviderChannelID env _ _) as [channelID|e] eqn:Hc in E.
  2:{ injection E as <- <-. eexists. split; [reflexivity|].
      apply run_channel. exact Hc. }
  cbv beta iota delta [bind getTrace getFee] in E.
  destruct (feeLeg_run env aph) as (fee & Hfee & Hleg).
  destruct ((if negb (IsValid env (trace aph) (transactorFee aph))
             then updateFee env else ret tt) aph) as [[] aph1].
  cbn [snd] in Hfee.
  destruct (jsonMarshal env _) as [plaintext|e] eqn:Hm in E.
  2:{ cbv beta iota delta [sendAndReturn bind emit ret] in E.
      injection E as <- <-. cbn [trace withTrace].
      exists (fee ++ [EvChanSend (errChan er)
                        (Errorf (returnMessage AtMarshal) e)]).
      split; [now rewrite Hfee, app_assoc|].
      now apply run_marshal. }
  destruct (Encrypt env _ plaintext) as [encrypted|e] eqn:Hen in E.
  2:{ cbv beta iota delta [sendAndReturn bind emit ret] in E.
      injection E as <- <-. cbn [trace withTrace].
      exists (fee ++ [EvChanSend (errChan er)
                        (Errorf (returnMessage AtEncrypt) e)]).
      split; [now rewrite Hfee, app_assoc|].
      now apply run_encrypt with (plaintext := plaintext). }
  rewrite getHermesCaller_eq, Hfee in E.
  destruct (GetHermesURL env (trace aph ++ fee) _) as [url|e] eqn:Hu in E.
  2:{ cbv beta iota delta [sendAndReturn bind emit ret] in E.
      injection E as <- <-. cbn [trace withTrace].
      eexists (fee ++ [_; _]).
      split; [now rewrite <- !app_assoc|].
      now apply run_caller. }
  unfold call at 1 in E. cbn [trace withTrace] in E.
  destruct (HermesRequestPromise env _ url _) as [promise err] eqn:Hp in E.
  match type of E with
  | context [handleHermesError env err _ _ ?a] =>
      remember a as aph2 eqn:Ha2
  end.
  set (feeValue := Fee (transactorFee aph1)) in *.
  set (leg0 := fee ++ [EvGetHermesURL (hermesOf env er);
                       EvRequestPromise url (requestOf er feeValue encrypted)]).
  assert (Ht2 : trace aph2 = trace aph ++ leg0).
  { subst aph2 leg0. cbn [trace withTrace]. now rewrite <- !app_assoc. }
  clear Ha2.
  destruct (handleHermesError_run env err (providerID er) (hermesOf env er)
              aph2) as (handling & Hh & Hcalm).
  change (HexToAddress env (HermesID (em er))) with (hermesOf env er) in *.
  destruct (handleHermesError env err (providerID er) (hermesOf env er) aph2)
    as [herr aph3].
  cbn [snd] in Hh.
  assert (Ht3 : trace aph3 = trace aph ++ leg0 ++ handling).
  { subst aph3. cbn [trace withTrace]. now rewrite Ht2, <- app_assoc. }
  clear Hh.
  assert (Hreq : requestLeg env er aph channelID promise (leg0 ++ handling)).
  { subst leg0. rewrite <- app_assoc.
    apply request_leg with (plaintext := plaintext); auto.
    rewrite app_assoc.
    match type of Hp with ?f = _ => change (promise = fst f) end.
    now rewrite Hp. }
  destruct herr as [e|].
  { cbv beta iota delta [sendAndReturn bind emit ret] in E.
    injection E as <- <-. cbn [trace withTrace].
    exists ((leg0 ++ handling) ++
            [EvChanSend (errChan er)
               (Errorf (returnMessage AtRequestPromise) e)]).
    split; [now rewrite Ht3, <- !app_assoc|].
    now apply run_request with (channelID := channelID) (promise := promise). }
  change {| ChannelID := channelID; HPIdentity := providerID er;
            HPHermesID := hermesOf env er; HPPromise := promise;
            HPR := hex.EncodeToString (r er); Revealed := false;
            HPAgreementID := AgreementID (em er) |}
    with (recordOf env er channelID promise) in E.
  set (rec := recordOf env er channelID promise) in *.
  match type of E with
  | context [if _ then _ else ?k] => set (after := k) in E
  end.
  assert (Hafter : forall aph4,
            trace aph4 = trace aph ++ (leg0 ++ handling) ++ [EvStore rec] ->
            match Store env (trace aph ++ leg0 ++ handling) rec with
            | Some e => Is e ErrAttemptToOverwrite = true
            | None => True
            end ->
            exists new,
              trace (snd (after aph4)) = trace aph ++ new /\
              requestRun env er aph (fst (after aph4)) new).
  { intros aph4 Ht4 Hstore. subst after.
    cbv beta iota delta [emit] . cbn [trace withTrace].
    match goal with
    | |- context [revealR env rec ?a] => remember a as aph5 eqn:Ha5
    end.
    assert (Ht5 : trace aph5
                  = trace aph ++ (leg0 ++ handling) ++
                    EvStore rec :: published env er promise).
    { subst aph5. cbn [trace withTrace]. rewrite Ht4.
      now rewrite <- !app_assoc. }
    clear Ha5.
    destruct (revealR_run env rec aph5) as (rev1 & Hr1 & Hrev1).
    destruct (revealR env rec aph5) as [rerr aph6]. cbn [snd] in Hr1.
    destruct (handleHermesError_run env rerr (providerID er)
                (hermesOf env er) aph6) as (rev2 & Hr2 & Hrev2).
    destruct (handleHermesError env rerr (providerID er) (hermesOf env er)
                aph6) as [herr aph7].
    cbn [snd] in Hr2.
    assert (Ht7 : trace aph7
                  = trace aph ++ (leg0 ++ handling) ++
                    EvStore rec :: published env er promise
                    ++ (rev1 ++ rev2)).
    { subst aph7 aph6. cbn [trace withTrace]. rewrite Ht5.
      now rewrite <- !app_assoc. }
    assert (Hrev : forallb revealing (rev1 ++ rev2) = true).
    { rewrite forallb_app, Hrev1, (calm_revealing _ Hrev2). reflexivity. }
    destruct herr as [e|].
    - cbv beta iota delta [sendAndReturn bind emit ret].
      cbn [fst snd trace withTrace].
      exists ((leg0 ++ handling) ++
              EvStore rec :: published env er promise ++ (rev1 ++ rev2) ++
              [EvChanSend (errChan er)
                 (Errorf (returnMessage AtRevealR) e)]).
      split.
      + rewrite Ht7, <- !app_assoc. cbn [app]. now rewrite <- !app_assoc.
      + apply run_reveal; auto.
    - cbn [ret fst snd].
      exists ((leg0 ++ handling) ++
              EvStore rec :: published env er promise ++ (rev1 ++ rev2)).
      split; [exact Ht7|].
      apply run_end; auto. }
  unfold call at 1 in E. rewrite Ht3 in E.
  cbv beta iota in E.
  assert (Ht4 : trace (withTrace ((trace aph ++ leg0 ++ handling)
                                  ++ [EvStore rec]) aph3)
                = trace aph ++ (leg0 ++ handling) ++ [EvStore rec]).
  { cbn [trace withTrace]. now rewrite <- !app_assoc. }
  destruct (Store env (trace aph ++ leg0 ++ handling) rec) as [e|] eqn:Hs.
  - destruct (Is e ErrAttemptToOverwrite) eqn:Hover; cbn [negb] in E.
    + specialize (Hafter _ Ht4 ltac:(auto)). rewrite E in Hafter. exact Hafter.
    + cbv beta iota delta [sendAndReturn bind emit ret] in E.
      injection E as <- <-. cbn [trace withTrace].
      exists ((leg0 ++ handling) ++
              [EvStore rec;
               EvChanSend (errChan er) (Errorf (returnMessage AtStore) e)]).
      split; [now rewrite <- !app_assoc|].
      apply run_store; auto.
  - specialize (Hafter _ Ht4 ltac:(auto)). rewrite E in Hafter. exact Hafter.
Qed.

(** *** The error channel *)

Lemma quiet_app (l1 l2 : list event) : quiet l1 -> quiet l2 -> quiet (l1 ++ l2).
Proof. unfold quiet. intros H1 H2. now rewrite forallb_app, H1, H2. Qed.

Lemma revealing_quiet (l : list event) : forallb revealing l = true -> quiet l.
Proof.
  unfold quiet. induction l as [|ev l IH]; [reflexivity|].
  cbn [forallb]. intros [Hev Hl]%andb_true_iff.
  rewrite (IH Hl), andb_true_r. now destruct ev.
Qed.

Lemma feeLeg_quiet (env : Env) (aph : HermesPromiseHandler) (fee : list event) :
  feeLeg env aph fee -> quiet fee.
Proof. now intros []. Qed.

Lemma requestLeg_quiet (env : Env) (er : enqueuedRequest)
    (aph : HermesPromiseHandler) (channelID : string) (promise : Promise)
    (leg : list event) :
  requestLeg env er aph channelID promise leg -> quiet leg.
Proof.
  intros [fee plaintext encrypted url feeValue handling _ Hfee _ _ _ _ Hcalm].
  apply quiet_app; [now apply feeLeg_quiet with (env := env) (aph := aph)|].
  apply (quiet_app [_; _]); [reflexivity|].
  now apply revealing_quiet, calm_revealing.
Qed.

(** C2: the protocol of the error channel.  [RequestPromise] hands out the
    channel of the request it puts on the queue.  Processing the request
    ends by closing that channel, and the close is the last thing the
    handler does for the request.  Before the close the channel carries
    nothing when [requestPromise] runs to its end, and then every leg of
    the request was carried out: the hermes was asked, the promise stored
    unrevealed, both events published, in this order; it carries exactly
    one error, sent right before the close and under the message of the
    step that gave up, when [requestPromise] returns early. *)
Theorem requestPromise_errChan (env : Env) (er : enqueuedRequest)
    (aph : HermesPromiseHandler) :
  let at_ := fst (requestPromise_body env er aph) in
  (forall r_ em_ providerID_ sessionID_ c aph',
     RequestPromise r_ em_ providerID_ sessionID_ aph = (Some c, aph') ->
     c = nextChan aph /\ nextChan aph' = S c /\
     queue aph' =
       queue aph ++ [{| errChan := c; r := r_; em := em_;
                        providerID := providerID_;
                        sessionID := sessionID_ |}]) /\
  exists pre sent,
    trace (snd (requestPromise env er aph))
    = trace aph ++ pre ++ map (EvChanSend (errChan er)) sent
        ++ [EvChanClose (errChan er)] /\
    quiet pre /\
    (sent = [] <-> at_ = AtEnd) /\
    (at_ <> AtEnd ->
     exists cause, sent = [Errorf (returnMessage at_) cause]) /\
    (at_ = AtEnd ->
     exists channelID promise leg reveal,
       requestLeg env er aph channelID promise leg /\
       pre = leg ++ EvStore (recordOf env er channelID promise)
                 :: published env er promise ++ reveal).
Proof.
  intros at_. split.
  { intros r_ em_ providerID_ sessionID_ c aph' H.
    unfold RequestPromise in H. cbn [queue nextChan errChan] in H.
    destruct (length (queue aph) <? 100)%nat; [|discriminate].
    injection H as <- <-. cbn. auto. }
  destruct (requestPromise_body_run env er aph) as (new & Htrace & Hrun).
  fold at_ in Hrun.
  assert (Hout : trace (snd (requestPromise env er aph))
                 = trace aph ++ new ++ [EvChanClose (errChan er)]).
  { unfold requestPromise, bind, emit.
    destruct (requestPromise_body env er aph) as [a aph1].
    cbn [snd trace withTrace] in Htrace |- *.
    now rewrite Htrace, <- app_assoc. }
  rewrite Hout. clear Hout Htrace.
  assert (Hsend : forall pre cause,
            new = pre ++ [EvChanSend (errChan er)
                            (Errorf (returnMessage at_) cause)] ->
            at_ <> AtEnd -> quiet pre ->
            exists pre sent,
              trace aph ++ new ++ [EvChanClose (errChan er)]
              = trace aph ++ pre ++ map (EvChanSend (errChan er)) sent
                  ++ [EvChanClose (errChan er)] /\
              quiet pre /\
              (sent = [] <-> at_ = AtEnd) /\
              (at_ <> AtEnd ->
               exists cause, sent = [Errorf (returnMessage at_) cause]) /\
              (at_ = AtEnd ->
               exists channelID promise leg reveal,
                 requestLeg env er aph channelID promise leg /\
                 pre = leg ++ EvStore (recordOf env er channelID promise)
                           :: published env er promise ++ reveal)).
  { intros pre cause -> Hne Hq.
    exists pre, [Errorf (returnMessage at_) cause].
    split; [now rewrite <- !app_assoc|]. split; [exact Hq|].
    split; [split; [discriminate|contradiction]|].
    split; [eauto|contradiction]. }
  destruct Hrun as
    [e Hc
    |fee e Hfee Hm
    |fee plaintext e Hfee Hm He
    |fee e Hfee Hu
    |channelID promise leg e Hleg
    |channelID promise leg e Hleg Hs Hover
    |channelID promise leg reveal e Hleg Hs Hrev
    |channelID promise leg reveal Hleg Hs Hrev].
  - apply (Hsend [] e); [reflexivity|discriminate|reflexivity].
  - apply (Hsend fee e); [reflexivity|discriminate|].
    now apply feeLeg_quiet with (env := env) (aph := aph).
  - apply (Hsend fee e); [reflexivity|discriminate|].
    now apply feeLeg_quiet with (env := env) (aph := aph).
  - apply (Hsend (fee ++ [EvGetHermesURL (hermesOf env er)])
             (Errorf "could not get hermes URL" e));
      [now rewrite <- app_assoc|discriminate|].
    apply quiet_app; [|reflexivity].
    now apply feeLeg_quiet with (env := env) (aph := aph).
  - apply (Hsend leg e); [reflexivity|discriminate|].
    eapply requestLeg_quiet; eassumption.
  - apply (Hsend (leg ++ [EvStore (recordOf env er channelID promise)]) e);
      [now rewrite <- app_assoc|discriminate|].
    apply quiet_app; [|reflexivity].
    eapply requestLeg_quiet; eassumption.
  - apply (Hsend (leg ++ EvStore (recordOf env er channelID promise)
                      :: published env er promise ++ reveal) e);
      [|discriminate|].
    + rewrite <- !app_assoc. cbn [app]. now rewrite <- !app_assoc.
    + apply quiet_app; [eapply requestLeg_quiet; eassumption|].
      apply (quiet_app [_; _; _]); [reflexivity|].
      now apply revealing_quiet.
  - exists (leg ++ EvStore (recordOf env er channelID promise)
                :: published env er promise ++ reveal), [].
    split; [reflexivity|]. split.
    { apply quiet_app; [eapply requestLeg_quiet; eassumption|].
      apply (quiet_app [_; _; _]); [reflexivity|].
      now apply revealing_quiet. }
    split; [split; reflexivity|].
    split; [contradiction|].
    intros _. exists channelID, promise, leg, reveal. auto.
Qed.

Lemma requestPromise_errChan_witness :
  fst (requestPromise_body Scenario.recoveryEnv Scenario.request1
         Scenario.handler0) = AtEnd /\
  exists pre,
    trace (snd (requestPromise Scenario.recoveryEnv Scenario.request1
                  Scenario.handler0))
    = pre ++ [EvChanClose 0%nat] /\
    quiet pre.
Proof.
  destruct (requestPromise_errChan Scenario.recoveryEnv Scenario.request1
              Scenario.handler0)
    as (_ & pre & sent & Ht & Hq & Hiff & _).
  assert (Hend : fst (requestPromise_body Scenario.recoveryEnv
                        Scenario.request1 Scenario.handler0) = AtEnd)
    by reflexivity.
  split; [exact Hend|].
  apply Hiff in Hend. subst sent.
  exists pre. split; [exact Ht|exact Hq].
Defined.

(** *** The two stores *)

Lemma storeFree_app (l1 l2 : list event) :
  storeFree l1 -> storeFree l2 -> storeFree (l1 ++ l2).
Proof. unfold storeFree. intros H1 H2. now rewrite forallb_app, H1, H2. Qed.

Lemma storeFree_absurd (pre rest : list event) (ev : event) :
  storeFree (pre ++ ev :: rest) -> unrevealedStore ev = true -> False.
Proof.
  unfold storeFree. rewrite forallb_app. cbn [forallb].
  intros H Hev. rewrite Hev in H. cbn in H.
  now rewrite andb_false_r in H.
Qed.

(** The one unrevealed store of a trace is found at one place only. *)
Lemma split_at_store (front back pre rest : list event) (x y : event) :
  storeFree front -> storeFree back ->
  front ++ x :: back = pre ++ y :: rest ->
  unrevealedStore y = true ->
  pre = front /\ y = x /\ rest = back.
Proof.
  intros Hfront Hback. revert pre.
  induction front as [|a front IH]; intros [|p pre] Heq Hy; cbn in Heq.
  - injection Heq as <- <-. auto.
  - injection Heq as <- ->.
    exfalso. eapply storeFree_absurd; eassumption.
  - injection Heq as <- _. exfalso.
    apply (storeFree_absurd [] front a); assumption.
  - injection Heq as <- Heq.
    destruct (IH ltac:(unfold storeFree in *; cbn in Hfront;
                       now apply andb_true_iff in Hfront as [_ ?])
                pre Heq Hy) as (-> & -> & ->).
    auto.
Qed.

Lemma requestLeg_storeFree (env : Env) (er : enqueuedRequest)
    (aph : HermesPromiseHandler) (channelID : string) (promise : Promise)
    (leg : list event) :
  requestLeg env er aph channelID promise leg -> storeFree leg.
Proof.
  intros [fee plaintext encrypted url feeValue handling _ Hfee _ _ _ _ Hcalm].
  apply storeFree_app; [now destruct Hfee|].
  apply (storeFree_app [_; _]); [reflexivity|].
  now apply calm_not_unrevealed, calm_revealing.
Qed.

Lemma bind_ext {A B} (c : M A) (k1 k2 : A -> M B)
    (aph : HermesPromiseHandler) :
  (forall a s, k1 a s = k2 a s) -> bind c k1 aph = bind c k2 aph.
Proof. intros H. unfold bind. destruct (c aph). apply H. Qed.

Lemma bind_call {A B} (ev : event) (answer : list event -> A)
    (k : A -> M B) (aph : HermesPromiseHandler) :
  bind (call ev answer) k aph
  = k (answer (trace aph)) (withTrace (trace aph ++ [ev]) aph).
Proof. reflexivity. Qed.

Lemma revealR_forgiving (env : Env) (hp : HermesPromise)
    (aph : HermesPromiseHandler) :
  revealR (forgiving env) hp aph = revealR env hp aph.
Proof.
  unfold revealR. destruct (Revealed hp); [reflexivity|].
  change (getHermesCaller (forgiving env)) with (getHermesCaller env).
  apply bind_ext. intros [url|e] s; [|reflexivity].
  change (HermesRevealR (forgiving env)) with (HermesRevealR env).
  apply bind_ext. intros raw s1.
  change (handleHermesError (forgiving env)) with (handleHermesError env).
  apply bind_ext. intros [h|] s2; [reflexivity|].
  unfold bind, call. cbn [forgiving Store].
  destruct (Store env (trace s2) (setRevealed true hp)) as [e|];
    [|reflexivity].
  destruct (Is e ErrAttemptToOverwrite) eqn:Hover; cbn [negb];
    [reflexivity|].
  now rewrite Hover.
Qed.

Lemma requestPromise_body_forgiving (env : Env) (er : enqueuedRequest)
    (aph : HermesPromiseHandler) :
  requestPromise_body (forgiving env) er aph = requestPromise_body env er aph.
Proof.
  unfold requestPromise_body. cbv zeta.
  change (HexToAddress (forgiving env)) with (HexToAddress env).
  change (AddressHex (forgiving env)) with (AddressHex env).
  change (GenerateProviderChannelID (forgiving env))
    with (GenerateProviderChannelID env).
  destruct (GenerateProviderChannelID env _ _) as [channelID|e];
    [|reflexivity].
  apply bind_ext. intros t s0. apply bind_ext. intros fee s1.
  change (IsValid (forgiving env)) with (IsValid env).
  change (updateFee (forgiving env)) with (updateFee env).
  apply bind_ext. intros _ s2.
  change (jsonMarshal (forgiving env)) with (jsonMarshal env).
  destruct (jsonMarshal env _) as [plaintext|e]; [|reflexivity].
  change (Encrypt (forgiving env)) with (Encrypt env).
  change (ToCommonAddress (forgiving env)) with (ToCommonAddress env).
  destruct (Encrypt env _ plaintext) as [encrypted|e]; [|reflexivity].
  apply bind_ext. intros fee' s3.
  change (getHermesCaller (forgiving env)) with (getHermesCaller env).
  apply bind_ext. intros [url|e] s4; [|reflexivity].
  change (HermesRequestPromise (forgiving env))
    with (HermesRequestPromise env).
  apply bind_ext. intros [promise err] s5.
  change (handleHermesError (forgiving env)) with (handleHermesError env).
  apply bind_ext. intros [e|] s6; [reflexivity|].
  rewrite !bind_call. cbn [forgiving Store].
  set (rec := {| ChannelID := channelID |}).
  assert (Hafter : forall s,
            (let* _ := emit (EvPublish AppTopicHermesPromise
                               (AppEventHermesPromise promise
                                  (HexToAddress env (HermesID (em er)))
                                  (providerID er))) in
             let* _ := emit (EvPublish AppTopicTokensEarned
                               (AppEventTokensEarned (providerID er)
                                  (sessionID er) (AgreementTotal (em er)))) in
             let* err := revealR (forgiving env) rec in
             let* err := handleHermesError env err (providerID er)
                           (HexToAddress env (HermesID (em er))) in
             match err with
             | Some err =>
                 sendAndReturn er (Errorf "hermes reveal r error" err)
                   AtRevealR
             | None => ret AtEnd
             end) s
            =
            (let* _ := emit (EvPublish AppTopicHermesPromise
                               (AppEventHermesPromise promise
                                  (HexToAddress env (HermesID (em er)))
                                  (providerID er))) in
             let* _ := emit (EvPublish AppTopicTokensEarned
                               (AppEventTokensEarned (providerID er)
                                  (sessionID er) (AgreementTotal (em er)))) in
             let* err := revealR env rec in
             let* err := handleHermesError env err (providerID er)
                           (HexToAddress env (HermesID (em er))) in
             match err with
             | Some err =>
                 sendAndReturn er (Errorf "hermes reveal r error" err)
                   AtRevealR
             | None => ret AtEnd
             end) s).
  { intros s. apply bind_ext. intros _ s7. apply bind_ext. intros _ s8.
    unfold bind at 1 3. now rewrite revealR_forgiving. }
  destruct (Store env (trace s6) rec) as [e|]; [|apply Hafter].
  destruct (Is e ErrAttemptToOverwrite) eqn:Hover; cbn [negb].
  - apply Hafter.
  - rewrite Hover. reflexivity.
Qed.

(** C5: the two stores.  A handler cannot tell a storage that refuses
    with [ErrAttemptToOverwrite] from one that accepts: [requestPromise]
    and [revealR] do the same and return the same with either.  The store
    of the unrevealed promise failing with any other error ends
    [requestPromise] there, with that error on the channel and nothing
    published or revealed; the store of the revealed promise failing with
    any other error makes [revealR] return that error. *)
Theorem store_overwrite_swallowed (env : Env) :
  (forall er aph,
     requestPromise (forgiving env) er aph = requestPromise env er aph) /\
  (forall hp aph, revealR (forgiving env) hp aph = revealR env hp aph) /\
  (forall er aph pre hp rest e,
     trace (snd (requestPromise_body env er aph))
     = trace aph ++ pre ++ EvStore hp :: rest ->
     Revealed hp = false ->
     Store env (trace aph ++ pre) hp = Some e ->
     Is e ErrAttemptToOverwrite = false ->
     fst (requestPromise_body env er aph) = AtStore /\
     rest = [EvChanSend (errChan er)
               (Errorf "could not store hermes promise" e)]) /\
  (forall hp aph pre hp' e,
     trace (snd (revealR env hp aph)) = trace aph ++ pre ++ [EvStore hp'] ->
     Store env (trace aph ++ pre) hp' = Some e ->
     Is e ErrAttemptToOverwrite = false ->
     fst (revealR env hp aph)
     = Some (Errorf "could not store hermes promise" e)).
Proof.
  split; [|split; [|split]].
  - intros er aph. unfold requestPromise, bind.
    now rewrite requestPromise_body_forgiving.
  - apply revealR_forgiving.
  - intros er aph pre hp rest e Htrace Hrev Hstore Hover.
    destruct (requestPromise_body_run env er aph) as (new & Hnew & Hrun).
    rewrite Hnew in Htrace. apply app_inv_head in Htrace. subst new.
    assert (Hhp : unrevealedStore (EvStore hp) = true)
      by (cbn; now rewrite Hrev).
    assert (Hfee : forall fee, feeLeg env aph fee -> storeFree fee)
      by (now intros fee []).
    inversion Hrun as
      [e0 Hc Hat Hn
      |fee e0 Hfl Hm Hat Hn
      |fee plaintext e0 Hfl Hm He Hat Hn
      |fee e0 Hfl Hu Hat Hn
      |channelID promise leg e0 Hleg Hat Hn
      |channelID promise leg e0 Hleg Hs Hov Hat Hn
      |channelID promise leg reveal e0 Hleg Hs Hrv Hat Hn
      |channelID promise leg reveal Hleg Hs Hrv Hat Hn].
    + exfalso. apply (storeFree_absurd pre rest (EvStore hp)); auto.
      rewrite <- Hn. reflexivity.
    + exfalso. apply (storeFree_absurd pre rest (EvStore hp)); auto.
      rewrite <- Hn. apply storeFree_app; [auto|reflexivity].
    + exfalso. apply (storeFree_absurd pre rest (EvStore hp)); auto.
      rewrite <- Hn. apply storeFree_app; [auto|reflexivity].
    + exfalso. apply (storeFree_absurd pre rest (EvStore hp)); auto.
      rewrite <- Hn. apply storeFree_app; [auto|reflexivity].
    + exfalso. apply (storeFree_absurd pre rest (EvStore hp)); auto.
      rewrite <- Hn. apply storeFree_app; [|reflexivity].
      eapply requestLeg_storeFree; eassumption.
    + destruct (split_at_store leg
                  [EvChanSend (errChan er)
                     (Errorf (returnMessage AtStore) e0)] pre rest _ _
                  (requestLeg_storeFree _ _ _ _ _ _ Hleg)
                  ltac:(reflexivity) Hn Hhp) as (-> & [= ->] & ->).
      rewrite Hs in Hstore. injection Hstore as ->. auto.
    + exfalso.
      destruct (split_at_store leg
                  (published env er promise ++ reveal ++
                   [EvChanSend (errChan er)
                      (Errorf (returnMessage AtRevealR) e0)])
                  pre rest _ _
                  (requestLeg_storeFree _ _ _ _ _ _ Hleg)
                  ltac:(apply (storeFree_app [_; _]); [reflexivity|];
                        apply storeFree_app;
                        [now apply calm_not_unrevealed|reflexivity])
                  Hn Hhp) as (-> & [= ->] & _).
      rewrite Hstore in Hs. congruence.
    + exfalso.
      destruct (split_at_store leg
                  (published env er promise ++ reveal) pre rest _ _
                  (requestLeg_storeFree _ _ _ _ _ _ Hleg)
                  ltac:(apply (storeFree_app [_; _]); [reflexivity|];
                        now apply calm_not_unrevealed)
                  Hn Hhp) as (-> & [= ->] & _).
      rewrite Hstore in Hs. congruence.
  - intros hp aph pre hp' e Htrace Hstore Hover.
    destruct (Revealed hp) eqn:Hrev.
    { rewrite revealR_skips in Htrace by exact Hrev. cbn [snd] in Htrace.
      rewrite <- (app_nil_r (trace aph)) in Htrace at 1.
      apply app_inv_head in Htrace. now destruct pre. }
    destruct (revealR_cases env hp aph Hrev)
      as (handling & Hcalm & [[e0 Heq]|Heq]);
      rewrite Heq in Htrace |- *; cbn [fst snd trace withTrace] in *;
      apply app_inv_head in Htrace.
    + exfalso. subst handling. rewrite forallb_app in Hcalm.
      cbn in Hcalm. now rewrite andb_false_r in Hcalm.
    + apply app_inj_tail in Htrace as [-> [= ->]].
      now rewrite Hstore, Hover.
Qed.

Lemma store_overwrite_swallowed_witness :
  requestPromise (forgiving Scenario.overwritingEnv) Scenario.request1
    Scenario.handler0
  = requestPromise Scenario.overwritingEnv Scenario.request1
      Scenario.handler0 /\
  fst (requestPromise_body Scenario.overwritingEnv Scenario.request1
         Scenario.handler0) = AtEnd /\
  fst (requestPromise_body Scenario.failingStoreEnv Scenario.request1
         Scenario.handler0) = AtStore /\
  fst (revealR Scenario.failingStoreEnv Scenario.record1 Scenario.handler0)
  = Some (Errorf "could not store hermes promise" (New "disk full")).
Proof.
  destruct (store_overwrite_swallowed Scenario.overwritingEnv)
    as (Hsame & _).
  destruct (store_overwrite_swallowed Scenario.failingStoreEnv)
    as (_ & _ & Hfirst & Hsecond).
  split; [apply Hsame|]. split; [reflexivity|]. split.
  - apply (Hfirst Scenario.request1 Scenario.handler0
             [EvGetHermesURL "0xh0";
              EvRequestPromise "https://hermes"
                (requestOf Scenario.request1 (Some 1)
                   (rev [Byte.x2a; Byte.x61; Byte.x62]))]
             Scenario.record1
             [EvChanSend 0%nat
                (Errorf "could not store hermes promise" (New "disk full"))]
             (New "disk full")); reflexivity.
  - apply (Hsecond Scenario.record1 Scenario.handler0
             [EvGetHermesURL "0xh0";
              EvRevealR "https://hermes" "ab" "0xp0" (Some 42)]
             (setRevealed true Scenario.record1) (New "disk full"));
      reflexivity.
Defined.

(** *** The recovery payload *)

Lemma revealing_no_request (l : list event) (url : string)
    (rp : RequestPromise_) :
  forallb revealing l = true -> ~ In (EvRequestPromise url rp) l.
Proof.
  intros Hl Hin. rewrite forallb_forall in Hl.
  now specialize (Hl _ Hin).
Qed.

Lemma feeLeg_no_request (env : Env) (aph : HermesPromiseHandler)
    (fee : list event) (url : string) (rp : RequestPromise_) :
  feeLeg env aph fee -> ~ In (EvRequestPromise url rp) fee.
Proof. intros [] Hin; cbn in Hin; intuition discriminate. Qed.

(** The requests of a run are built from the encrypted details. *)
Lemma requestLeg_request (env : Env) (er : enqueuedRequest)
    (aph : HermesPromiseHandler) (channelID : string) (promise : Promise)
    (leg : list event) (url : string) (rp : RequestPromise_) :
  requestLeg env er aph channelID promise leg ->
  In (EvRequestPromise url rp) leg ->
  exists plaintext encrypted,
    jsonMarshal env (detailsOf er) = Ok plaintext /\
    Encrypt env (ToCommonAddress env (providerID er)) plaintext
    = Ok encrypted /\
    RRecoveryData rp = hex.EncodeToString encrypted /\
    ReqExchangeMessage rp = em er.
Proof.
  intros [fee plaintext encrypted url0 feeValue handling _ Hfee Hm He _ _
            Hcalm] Hin.
  apply in_app_or in Hin as [Hin|Hin];
    [exfalso; eapply feeLeg_no_request; eassumption|].
  cbn [app In] in Hin. destruct Hin as [Hin|[Hin|Hin]]; [discriminate| |].
  - injection Hin as <- <-. exists plaintext, encrypted. auto.
  - exfalso. eapply revealing_no_request; [|eassumption].
    now apply calm_revealing.
Qed.

Lemma requestRun_request (env : Env) (er : enqueuedRequest)
    (aph : HermesPromiseHandler) (at_ : returnPoint) (new : list event)
    (url : string) (rp : RequestPromise_) :
  requestRun env er aph at_ new ->
  In (EvRequestPromise url rp) new ->
  exists plaintext encrypted,
    jsonMarshal env (detailsOf er) = Ok plaintext /\
    Encrypt env (ToCommonAddress env (providerID er)) plaintext
    = Ok encrypted /\
    RRecoveryData rp = hex.EncodeToString encrypted /\
    ReqExchangeMessage rp = em er.
Proof.
  intros Hrun Hin.
  destruct Hrun as
    [e Hc
    |fee e Hfee Hm
    |fee plaintext e Hfee Hm He
    |fee e Hfee Hu
    |channelID promise leg e Hleg
    |channelID promise leg e Hleg Hs Hover
    |channelID promise leg reveal e Hleg Hs Hrev
    |channelID promise leg reveal Hleg Hs Hrev].
  - cbn in Hin. intuition discriminate.
  - apply in_app_or in Hin as [Hin|Hin];
      [exfalso; eapply feeLeg_no_request; eassumption|cbn in Hin; intuition discriminate].
  - apply in_app_or in Hin as [Hin|Hin];
      [exfalso; eapply feeLeg_no_request; eassumption|cbn in Hin; intuition discriminate].
  - apply in_app_or in Hin as [Hin|Hin];
      [exfalso; eapply feeLeg_no_request; eassumption|cbn in Hin; intuition discriminate].
  - apply in_app_or in Hin as [Hin|Hin];
      [eapply requestLeg_request; eassumption
      |cbn in Hin; intuition discriminate].
  - apply in_app_or in Hin as [Hin|Hin];
      [eapply requestLeg_request; eassumption
      |cbn in Hin; intuition discriminate].
  - apply in_app_or in Hin as [Hin|Hin];
      [eapply requestLeg_request; eassumption|].
    cbn [In published app] in Hin.
    destruct Hin as [Hin|[Hin|[Hin|Hin]]]; try discriminate.
    apply in_app_or in Hin as [Hin|Hin];
      [exfalso; eapply revealing_no_request; eassumption
      |cbn in Hin; intuition discriminate].
  - apply in_app_or in Hin as [Hin|Hin];
      [eapply requestLeg_request; eassumption|].
    cbn [In published app] in Hin.
    destruct Hin as [Hin|[Hin|[Hin|Hin]]]; try discriminate.
    exfalso. eapply revealing_no_request; eassumption.
Qed.

(** C4: the round trip of the recovery payload.  Take the details
    [{R: hex(r), AgreementID}] of a request, in the encoding and under the
    encryption of the handler, and let decryption and decoding invert
    them for this payload.  Every request [requestPromise] makes to the
    hermes carries the hexadecimal form of the encrypted details.  Handed
    back under [ErrNeedsRRecovery], the payload is recovered: [recoverR]
    decodes, decrypts and parses it, resolves the hermes and calls
    [RevealR] with exactly [hex(r)], the provider's address and the
    agreement id of the request, and returns that call's failure, if
    any. *)
Theorem recovery_payload_roundtrip (env : Env) (er : enqueuedRequest)
    (aph : HermesPromiseHandler) (plaintext ciphertext : list Byte.byte) :
  let provider := ToCommonAddress env (providerID er) in
  let payload := hex.EncodeToString ciphertext in
  jsonMarshal env (detailsOf er) = Ok plaintext ->
  Encrypt env provider plaintext = Ok ciphertext ->
  Decrypt env provider ciphertext = Ok plaintext ->
  jsonUnmarshal env plaintext = Ok (detailsOf er) ->
  (forall new url rp,
     trace (snd (requestPromise_body env er aph)) = trace aph ++ new ->
     In (EvRequestPromise url rp) new ->
     RRecoveryData rp = payload /\ ReqExchangeMessage rp = em er) /\
  (forall cause hermesID aph',
     Is cause ErrNeedsRRecovery = true ->
     handleHermesError env (Some (HermesErrorResponse payload cause))
       (providerID er) hermesID aph'
     = recoverR env payload (providerID er) hermesID aph') /\
  (forall hermesID aph' url,
     GetHermesURL env (trace aph') hermesID = Ok url ->
     recoverR env payload (providerID er) hermesID aph' =
       (match HermesRevealR env (trace aph' ++ [EvGetHermesURL hermesID]) url
                (hex.EncodeToString (r er)) (Address (providerID er))
                (AgreementID (em er)) with
        | Some e => Some (Errorf "could not reveal R" e)
        | None => None
        end,
        withTrace
          (trace aph' ++
           [EvGetHermesURL hermesID;
            EvRevealR url (hex.EncodeToString (r er))
              (Address (providerID er)) (AgreementID (em er))])
          aph')).
Proof.
  intros provider payload Hm He Hd Hu. split; [|split].
  - intros new url rp Htrace Hin.
    destruct (requestPromise_body_run env er aph) as (new' & Hnew & Hrun).
    rewrite Hnew in Htrace. apply app_inv_head in Htrace. subst new'.
    destruct (requestRun_request _ _ _ _ _ _ _ Hrun Hin)
      as (plaintext' & encrypted & Hm' & He' & Hdata & Hem).
    rewrite Hm in Hm'. injection Hm' as <-.
    fold provider in He'. rewrite He in He'. injection He' as <-.
    auto.
  - intros cause hermesID aph' Hcause.
    unfold handleHermesError. cbn [Is As]. rewrite Hcause.
    unfold bind.
    destruct (recoverR env payload (providerID er) hermesID aph')
      as [[e|] s]; reflexivity.
  - intros hermesID aph' url Hurl.
    unfold recoverR. subst payload.
    rewrite DecodeString_EncodeToString.
    fold provider. rewrite Hd, Hu.
    unfold bind at 1. rewrite getHermesCaller_eq, Hurl.
    rewrite bind_call. cbn [trace withTrace R DetailsAgreementID detailsOf].
    destruct (HermesRevealR env _ url _ _ _);
      unfold ret, withTrace; cbn; rewrite <- app_assoc; reflexivity.
Qed.

Lemma recovery_payload_roundtrip_witness :
  trace (snd (requestPromise Scenario.recoveryEnv Scenario.request1
                Scenario.handler0))
  = [EvGetHermesURL "0xh0";
     EvRequestPromise "https://hermes"
       (requestOf Scenario.request1 (Some 1)
          (rev [Byte.x2a; Byte.x61; Byte.x62]));
     EvGetHermesURL "0xh0";
     EvRevealR "https://hermes" "ab" "0xp0" (Some 42);
     EvStore (recordOf Scenario.recoveryEnv Scenario.request1 "0xp00xh0"
                Scenario.zeroPromise)]
    ++ published Scenario.recoveryEnv Scenario.request1 Scenario.zeroPromise
    ++ [EvGetHermesURL "0xh0";
        EvRevealR "https://hermes" "ab" "0xp0" (Some 42);
        EvStore (setRevealed true
                   (recordOf Scenario.recoveryEnv Scenario.request1
                      "0xp00xh0" Scenario.zeroPromise));
        EvChanClose 0%nat] /\
  recoverR Scenario.recoveryEnv
    (hex.EncodeToString (rev [Byte.x2a; Byte.x61; Byte.x62]))
    Scenario.providerP "0xh0" Scenario.handler0
  = (None,
     withTrace [EvGetHermesURL "0xh0";
                EvRevealR "https://hermes" "ab" "0xp0" (Some 42)]
       Scenario.handler0).
Proof.
  split; [reflexivity|].
  destruct (recovery_payload_roundtrip Scenario.recoveryEnv Scenario.request1
              Scenario.handler0 [Byte.x2a; Byte.x61; Byte.x62]
              (rev [Byte.x2a; Byte.x61; Byte.x62])
              eq_refl eq_refl eq_refl eq_refl) as (_ & _ & Hrecover).
  exact (Hrecover "0xh0" Scenario.handler0 "https://hermes" eq_refl).
Defined.

End HandlerFacts.

(** * Further properties of the session manager *)
Module ManagerMore.
Import service.

Lemma Identity_eqb_eq (a b : Identity) : Identity_eqb a b = true <-> a = b.
Proof.
  destruct a as [x], b as [y]. unfold Identity_eqb. cbn.
  rewrite String.eqb_eq. split; [now intros ->|now intros [= ->]].
Qed.

Lemma Identity_eqb_neq (a b : Identity) : a <> b -> Identity_eqb a b = false.
Proof.
  intros H. destruct (Identity_eqb a b) eqn:E; [|reflexivity].
  now apply Identity_eqb_eq in E.
Qed.

Lemma unlock_after_lock (g : gid) (m : SessionManager) :
  creationLock m = None ->
  withLockHolder None (withLockHolder (Some g) m) = m.
Proof. destruct m; simpl; intros ->; reflexivity. Qed.

(** [Destroy] of an unknown session, or by a consumer who does not own
    the session, returns the matching error and has no effect at all: the
    p2p channel is not closed, nothing is removed and no [done] is closed.
    This holds whoever holds the creation lock, since the lookup is done
    outside it. *)
Theorem Destroy_rejected (g : gid) (consumerID : Identity)
    (sessionID : string) (m : SessionManager) :
  (sessionStorage m !! sessionID = None ->
   Destroy g consumerID sessionID m
   = (Returns (Some (Sentinel ErrorSessionNotExists)), m)) /\
  (forall s, sessionStorage m !! sessionID = Some s ->
     ConsumerID s <> consumerID ->
     Destroy g consumerID sessionID m
     = (Returns (Some (Sentinel ErrorWrongSessionOwner)), m)).
Proof.
  split.
  - intros H. unfold Destroy, bind, Find. now rewrite H.
  - intros s H Hne. unfold Destroy, bind, Find. rewrite H.
    now rewrite (Identity_eqb_neq _ _ Hne).
Qed.

Lemma Destroy_rejected_witness :
  Destroy 1%nat Scenario.consumerC "s2" Scenario.manager1
  = (Returns (Some (Sentinel ErrorSessionNotExists)), Scenario.manager1) /\
  Destroy 1%nat {| Address := "0xc1" |} "s1" Scenario.manager1
  = (Returns (Some (Sentinel ErrorWrongSessionOwner)), Scenario.manager1).
Proof.
  split.
  - apply (Destroy_rejected 1%nat Scenario.consumerC "s2" Scenario.manager1).
    reflexivity.
  - apply (Destroy_rejected 1%nat {| Address := "0xc1" |} "s1"
             Scenario.manager1) with (s := Scenario.session1);
      [reflexivity|discriminate].
Defined.

(** [Acknowledge], with the creation lock free: an unknown session and a
    consumer who is not the owner get their errors and nothing happens;
    the owner gets nil and exactly one acknowledged event is published.
    In no case are the store, the [done] channels, the goroutines or the
    p2p channel touched, and the lock is free again afterwards.  With the
    lock held, [Acknowledge] parks and nothing happens. *)
Theorem Acknowledge_outcomes (g : gid) (consumerID : Identity)
    (sessionID : string) (m : SessionManager) :
  (forall h, creationLock m = Some h ->
     Acknowledge g consumerID sessionID m = (Blocks, m)) /\
  (creationLock m = None ->
   (sessionStorage m !! sessionID = None ->
    Acknowledge g consumerID sessionID m
    = (Returns (Some (Sentinel ErrorSessionNotExists)), m)) /\
   (forall s, sessionStorage m !! sessionID = Some s ->
      ConsumerID s <> consumerID ->
      Acknowledge g consumerID sessionID m
      = (Returns (Some (Sentinel ErrorWrongSessionOwner)), m)) /\
   (forall s, sessionStorage m !! sessionID = Some s ->
      ConsumerID s = consumerID ->
      Acknowledge g consumerID sessionID m
      = (Returns None, withTrace (trace m ++ [EvPublishSession s]) m))).
Proof.
  split.
  - intros h Hl. unfold Acknowledge, locked. now rewrite Hl.
  - intros Hl. unfold Acknowledge, locked. rewrite Hl.
    unfold bind, Find. cbn [sessionStorage withLockHolder].
    split; [|split].
    + intros ->. cbn. now rewrite unlock_after_lock.
    + intros s -> Hne. rewrite (Identity_eqb_neq _ _ Hne). cbn.
      now rewrite unlock_after_lock.
    + intros s -> Heq.
      assert (He : Identity_eqb (ConsumerID s) consumerID = true)
        by now apply Identity_eqb_eq.
      rewrite He. cbn.
      destruct m; cbn in *; subst; reflexivity.
Qed.

Lemma Acknowledge_outcomes_witness :
  Acknowledge 1%nat Scenario.consumerC "s1" Scenario.manager1
  = (Returns None,
     withTrace [EvPublishSession Scenario.session1] Scenario.manager1) /\
  Acknowledge 1%nat Scenario.consumerC "s2" Scenario.manager1
  = (Returns (Some (Sentinel ErrorSessionNotExists)), Scenario.manager1) /\
  Acknowledge 1%nat {| Address := "0xc1" |} "s1" Scenario.manager1
  = (Returns (Some (Sentinel ErrorWrongSessionOwner)), Scenario.manager1) /\
  Acknowledge 1%nat Scenario.consumerC "s1"
    (withLockHolder (Some 2%nat) Scenario.manager1)
  = (Blocks, withLockHolder (Some 2%nat) Scenario.manager1).
Proof.
  destruct (Acknowledge_outcomes 1%nat Scenario.consumerC "s1"
              Scenario.manager1) as (_ & H1).
  destruct (H1 eq_refl) as (_ & _ & Hok).
  destruct (Acknowledge_outcomes 1%nat Scenario.consumerC "s2"
              Scenario.manager1) as (_ & H2).
  destruct (H2 eq_refl) as (Hmissing & _).
  destruct (Acknowledge_outcomes 1%nat {| Address := "0xc1" |} "s1"
              Scenario.manager1) as (_ & H3).
  destruct (H3 eq_refl) as (_ & Hwrong & _).
  destruct (Acknowledge_outcomes 1%nat Scenario.consumerC "s1"
              (withLockHolder (Some 2%nat) Scenario.manager1))
    as (Hblocked & _).
  split; [exact (Hok Scenario.session1 eq_refl eq_refl)|].
  split; [exact (Hmissing eq_refl)|].
  split; [apply (Hwrong Scenario.session1 eq_refl); discriminate|].
  exact (Hblocked 2%nat eq_refl).
Defined.

(** [Destroy] by the owner, with the lock free and the session live:
    the p2p channel is closed, the session leaves the store, its [done]
    is closed, the lock is released and nil is returned.  After that the
    session is unknown: the same [Destroy] again is refused with
    [ErrorSessionNotExists] and changes nothing. *)
Theorem Destroy_owner_once (g g' : gid) (s : Session) (c : chan)
    (m : SessionManager) :
  creationLock m = None ->
  channel m = true ->
  sessionStorage m !! ID s = Some s ->
  done s = Some c ->
  isClosed c m = false ->
  exists m',
    Destroy g (ConsumerID s) (ID s) m = (Returns None, m') /\
    sessionStorage m' = delete (ID s) (sessionStorage m) /\
    closed m' = c :: closed m /\
    channelClosed m' = true /\
    trace m' = trace m ++ [EvChannelClose] /\
    creationLock m' = None /\
    goroutines m' = goroutines m /\
    Destroy g' (ConsumerID s) (ID s) m'
    = (Returns (Some (Sentinel ErrorSessionNotExists)), m').
Proof.
  intros Hl Hch Hs Hd Hc.
  assert (He : Identity_eqb (ConsumerID s) (ConsumerID s) = true)
    by now apply Identity_eqb_eq.
  unfold Destroy at 1. unfold bind, Find. rewrite Hs, He. cbn [negb].
  unfold channelClose. rewrite Hch.
  set (m1 := withChannelClosed true _).
  assert (Hl1 : creationLock m1 = None) by exact Hl.
  assert (Hc1 : isClosed c m1 = false) by exact Hc.
  rewrite (ManagerFacts.destroySession_unlocked g s m1 Hl1), Hd, Hc1.
  eexists. split; [reflexivity|].
  cbn [sessionStorage closed channelClosed trace creationLock goroutines
       withChans withStorage withChannelClosed withTrace m1].
  repeat (split; [first [reflexivity | assumption]|]).
  unfold Destroy, bind, Find.
  cbn [sessionStorage withChans withStorage].
  now rewrite lookup_delete_eq.
Qed.

Lemma Destroy_owner_once_witness :
  exists m',
    Destroy 1%nat Scenario.consumerC "s1" Scenario.manager1
    = (Returns None, m') /\
    sessionStorage m' !! "s1" = None /\
    closed m' = [0%nat] /\
    Destroy 2%nat Scenario.consumerC "s1" m'
    = (Returns (Some (Sentinel ErrorSessionNotExists)), m').
Proof.
  destruct (Destroy_owner_once 1%nat 2%nat Scenario.session1 0%nat
              Scenario.manager1 eq_refl eq_refl eq_refl eq_refl eq_refl)
    as (m' & H1 & H2 & H3 & _ & _ & _ & _ & H4).
  exists m'. split; [exact H1|]. split; [|split; [exact H3|exact H4]].
  rewrite H2. reflexivity.
Defined.

(** [Destroy] closes the p2p channel before it asks for the creation
    lock.  When the lock is held, the owner's [Destroy] parks with the
    channel already closed and the session still in the store with its
    [done] open; on a manager without a p2p channel it panics before it
    destroys anything. *)
Theorem Destroy_closes_channel_first (g : gid) (s : Session)
    (m : SessionManager) :
  sessionStorage m !! ID s = Some s ->
  (forall h, creationLock m = Some h -> channel m = true ->
     Destroy g (ConsumerID s) (ID s) m
     = (Blocks,
        withChannelClosed true (withTrace (trace m ++ [EvChannelClose]) m))) /\
  (channel m = false ->
   Destroy g (ConsumerID s) (ID s) m
   = (Panics "invalid memory address or nil pointer dereference", m)).
Proof.
  intros Hs.
  assert (He : Identity_eqb (ConsumerID s) (ConsumerID s) = true)
    by now apply Identity_eqb_eq.
  split.
  - intros h Hl Hch. unfold Destroy, bind, Find. rewrite Hs, He. cbn [negb].
    unfold channelClose. rewrite Hch.
    now rewrite (ManagerFacts.destroySession_locked g h).
  - intros Hch. unfold Destroy, bind, Find. rewrite Hs, He. cbn [negb].
    unfold channelClose. now rewrite Hch.
Qed.

Lemma Destroy_closes_channel_first_witness :
  let held := withLockHolder (Some 7%nat) Scenario.manager1 in
  fst (Destroy 1%nat Scenario.consumerC "s1" held) = Blocks /\
  channelClosed (snd (Destroy 1%nat Scenario.consumerC "s1" held)) = true /\
  sessionStorage (snd (Destroy 1%nat Scenario.consumerC "s1" held)) !! "s1"
  = Some Scenario.session1.
Proof.
  destruct (Destroy_closes_channel_first 1%nat Scenario.session1
              (withLockHolder (Some 7%nat) Scenario.manager1) eq_refl)
    as (Hheld & _).
  cbv zeta. change "s1" with (ID Scenario.session1).
  change Scenario.consumerC with (ConsumerID Scenario.session1).
  rewrite (Hheld 7%nat eq_refl eq_refl). repeat split.
Defined.

End ManagerMore.
